(** * SSGD / MLML: the out-of-core shuffling engine

    A shallow embedding of [src/utils/shuffle.py] ([shuffle_train],
    [external_sort], [external_shuffle]) and of the budget arithmetic at the
    end of [preprocess_arguments] in [src/mlml.py].

    Python integers are [Z].  Python floats are idealised as exact rationals
    ([Q]): [n / num_per_block] is the rational quotient and [a // b] is the
    floor of the rational quotient.  The process-wide numpy generator is an
    explicit generator state threaded through the world. *)

From Stdlib Require Import ZArith QArith Qround Lia.
From stdpp Require Import gmap strings list fin_maps.

Local Open Scope string_scope.
Local Open Scope list_scope.

(** ** Exceptions and outcomes *)

Inductive exn : Type :=
| AssertionError (msg : string)
| ZeroDivisionError
| UnsupportedType (dtype : string)
| DatasetReadError
| DatasetWriteError
| SlotNotFound (index : nat).

(** [Diverge] is not a Python value: it marks a run whose loops were cut by
    the iteration bound before they ended. *)
Inductive outcome (A : Type) : Type :=
| Ok (a : A)
| Raise (e : exn)
| Diverge.

Arguments Ok {A} a.
Arguments Raise {A} e.
Arguments Diverge {A}.

Definition exited {A} (r : outcome A) : bool :=
  match r with Diverge => false | _ => true end.

(** ** Budget arithmetic of [preprocess_arguments] (src/mlml.py) *)

Module Mlml.

(** The entries of the docopt dictionary that reach lines 126-130.  The
    numeric entries are taken after their [int(...)]/[float(...)] cleaning. *)
Record arguments : Type := {
  mnist : bool;
  spam : bool;
  cifar_10 : bool;
  dtype : string;
  train : string;
  test : string;
  n : Z;
  nt : Z;
  k : Z;
  d : Z;
  one_hot : string;
  buffer : Q;
  num_per_block : option Z
}.

Definition set_mnist (a : arguments) : arguments :=
  {| mnist := mnist a; spam := spam a; cifar_10 := cifar_10 a;
     dtype := "uint8";
     train := "data/mnist-" +:+ "uint8" +:+ "-60000-train";
     test := "data/mnist-" +:+ "uint8" +:+ "-10000-test";
     n := 60000; nt := 10000; k := 10; d := 784; one_hot := "true";
     buffer := buffer a; num_per_block := num_per_block a |}.

Definition set_spam (a : arguments) : arguments :=
  {| mnist := mnist a; spam := spam a; cifar_10 := cifar_10 a;
     dtype := dtype a;
     train := "data/spam-" +:+ dtype a +:+ "-2760-train";
     test := "data/spam-" +:+ dtype a +:+ "-690-test";
     n := 2760; nt := 690; k := 1; d := 55; one_hot := one_hot a;
     buffer := buffer a; num_per_block := num_per_block a |}.

Definition set_cifar_10 (a : arguments) : arguments :=
  {| mnist := mnist a; spam := spam a; cifar_10 := cifar_10 a;
     dtype := "uint8";
     train := "data/cifar-10-" +:+ "uint8" +:+ "-50000-train";
     test := "data/cifar-10-" +:+ "uint8" +:+ "-10000-test";
     n := 50000; nt := 10000; k := 10; d := 3072; one_hot := "true";
     buffer := buffer a; num_per_block := num_per_block a |}.

Definition set_num_per_block (v : Z) (a : arguments) : arguments :=
  {| mnist := mnist a; spam := spam a; cifar_10 := cifar_10 a;
     dtype := dtype a; train := train a; test := test a;
     n := n a; nt := nt a; k := k a; d := d a; one_hot := one_hot a;
     buffer := buffer a; num_per_block := Some v |}.

(** The three dataset presets, lines 84-109. *)
Definition presets (a : arguments) : arguments :=
  let a1 := if mnist a then set_mnist a else a in
  let a2 := if spam a1 then set_spam a1 else a1 in
  if cifar_10 a2 then set_cifar_10 a2 else a2.

(** [x // y] with a float [x] and an int [y]. *)
Definition float_floordiv (x : Q) (y : Z) : outcome Z :=
  if (y =? 0)%Z then Raise ZeroDivisionError
  else Ok (Qfloor (x / inject_Z y)).

Section Budget.

(** [bytes_per_dtype] is imported from the blocks module, which is not
    among the sources: the Byte-Width Table is a parameter.  [None] is the
    [UnsupportedType] failure. *)
Variable bytes_per_dtype : string -> option Z.

Definition preprocess_arguments (a0 : arguments) : outcome arguments :=
  let a := presets a0 in
  let bytes_total := (buffer a * inject_Z (10 ^ 6))%Q in
  match bytes_per_dtype (dtype a) with
  | None => Raise (UnsupportedType (dtype a))
  | Some width =>
      let bytes_per_sample := ((d a + 1) * width)%Z in
      match float_floordiv bytes_total bytes_per_sample with
      | Ok q => Ok (set_num_per_block (Z.min q (n a)) a)
      | Raise e => Raise e
      | Diverge => Diverge
      end
  end.

End Budget.


End Mlml.

(** ** The world the shuffle runs in *)

(** What the run does to its collaborators, newest event first.  [ERound] is
    ghost: it marks the start of one iteration of the merge loop and records
    how many cursors are active. *)
Inductive event : Type :=
| EScopeEnter (dtype tag : string) (num_per_block : Z)
| EScopeExit
| EWriterNew (dtype : string) (num_per_block : Z) (path : string)
| EBufferNew (dtype : string) (num_per_block : Z) (path : string) (shape : Z * Z)
| EReadBlock (rows : option nat)
| EWriteSlot (index rows : nat)
| ECursorNew (index : nat) (chunk : Z)
| ECursorNext (index : nat) (rows : option nat)
| EWrite (rows : nat)
| ERound (cursors : nat).

Definition is_io (e : event) : bool :=
  match e with
  | EReadBlock _ | EWriteSlot _ _ | ECursorNew _ _ | ECursorNext _ _ | EWrite _ => true
  | _ => false
  end.

Definition is_round (e : event) : bool :=
  match e with ERound _ => true | _ => false end.

Definition is_write (e : event) : bool :=
  match e with EWrite _ => true | _ => false end.

Section World.

Context {sample rng : Type}.

(** A file is the sequence of its samples.  [scratch] is [None] while no
    Scratch Scope is active.  [io_budget] is the environment: [Some k] lets
    [k] more I/O operations succeed and fails the next one, [None] never
    fails. *)
Record world : Type := {
  dataset : list sample;
  output : list sample;
  scratch : option (gmap nat (list sample));
  gen : rng;
  io_budget : option nat;
  trace : list event
}.

Definition M (A : Type) : Type := world -> outcome A * world.

Definition ret {A} (a : A) : M A := fun w => (Ok a, w).

Definition raise {A} (e : exn) : M A := fun w => (Raise e, w).

Definition diverge {A} : M A := fun w => (Diverge, w).

Definition bind {A B} (m : M A) (f : A -> M B) : M B :=
  fun w =>
    match m w with
    | (Ok a, w') => f a w'
    | (Raise e, w') => (Raise e, w')
    | (Diverge, w') => (Diverge, w')
    end.

Definition lift {A} (r : outcome A) : M A := fun w => (r, w).

Definition log (e : event) : M unit :=
  fun w =>
    (Ok tt,
     {| dataset := dataset w; output := output w; scratch := scratch w;
        gen := gen w; io_budget := io_budget w; trace := e :: trace w |}).

Definition set_scratch (s : option (gmap nat (list sample))) : M unit :=
  fun w =>
    (Ok tt,
     {| dataset := dataset w; output := output w; scratch := s;
        gen := gen w; io_budget := io_budget w; trace := trace w |}).

Definition set_output (o : list sample) : M unit :=
  fun w =>
    (Ok tt,
     {| dataset := dataset w; output := o; scratch := scratch w;
        gen := gen w; io_budget := io_budget w; trace := trace w |}).

Definition read_world : M world := fun w => (Ok w, w).

(** One I/O operation against the environment; [e] is what it raises when
    the environment fails it. *)
Definition io (e : exn) : M unit :=
  fun w =>
    match io_budget w with
    | None => (Ok tt, w)
    | Some (S k) =>
        (Ok tt,
         {| dataset := dataset w; output := output w; scratch := scratch w;
            gen := gen w; io_budget := Some k; trace := trace w |})
    | Some O => (Raise e, w)
    end.

End World.

Arguments world : clear implicits.
Arguments M : clear implicits.

Notation "x <- m ;; k" := (bind m (fun x => k))
  (at level 100, m at next level, k at level 200, right associativity).
Notation "m ;;; k" := (bind m (fun _ => k))
  (at level 100, k at level 200, right associativity).

(** ** Block Reader, Block Writer, Scratch Scope *)

Module Blocks.

Section Blocks.

Context {sample rng : Type}.

Local Abbreviation M := (M sample rng).

(** Modelled from the spec: [BlockBuffer] of blocks.py (imported by
    shuffle.py, not among the sources), the Sequential Block Reader of
    section 4.2.  A lazy forward-only sequence of
    blocks of [num_per_block] samples; the final block is the shorter rest. *)
Record BlockBuffer : Type := {
  bb_dtype : string;
  bb_num_per_block : Z;
  bb_path : string;
  bb_shape : Z * Z;
  bb_pos : nat
}.

(** Modelled from the spec: the constructor of [BlockBuffer]; the reader
    starts at the first sample. *)
Definition BlockBuffer_new (dtype : string) (num_per_block : Z)
    (path : string) (shape : Z * Z) : M BlockBuffer :=
  log (EBufferNew dtype num_per_block path shape) ;;;
  ret {| bb_dtype := dtype; bb_num_per_block := num_per_block;
         bb_path := path; bb_shape := shape; bb_pos := 0 |}.

(** Modelled from the spec: [next(blocks)] on a [BlockBuffer]; [None] is
    StopIteration, at the end of the file. *)
Definition BlockBuffer_next (b : BlockBuffer) : M (option (list sample * BlockBuffer)) :=
  io DatasetReadError ;;;
  w <- read_world ;;
  match drop (bb_pos b) (dataset w) with
  | [] => log (EReadBlock None) ;;; ret None
  | rest =>
      let size := Z.to_nat (bb_num_per_block b) in
      let block := take size rest in
      log (EReadBlock (Some (length block))) ;;;
      ret (Some (block,
                 {| bb_dtype := bb_dtype b; bb_num_per_block := bb_num_per_block b;
                    bb_path := bb_path b; bb_shape := bb_shape b;
                    bb_pos := bb_pos b + size |}))
  end.

(** Modelled from the spec: [BlockWriter] of blocks.py, the Sequential
    Block Writer of section 4.3.  Every [write] is a pure append
    to the Output File. *)
Record BlockWriter : Type := {
  bw_dtype : string;
  bw_num_per_block : Z;
  bw_path : string
}.

(** Modelled from the spec: the constructor of [BlockWriter]. *)
Definition BlockWriter_new (dtype : string) (num_per_block : Z) (path : string)
    : M BlockWriter :=
  log (EWriterNew dtype num_per_block path) ;;;
  ret {| bw_dtype := dtype; bw_num_per_block := num_per_block; bw_path := path |}.

(** Modelled from the spec: [writer.write(block)], an append to the Output
    File. *)
Definition BlockWriter_write (wr : BlockWriter) (block : list sample) : M unit :=
  io DatasetWriteError ;;;
  w <- read_world ;;
  set_output (output w ++ block) ;;;
  log (EWrite (length block)).

(** Modelled from the spec: [BlockScope] of blocks.py, the Scratch Scope of
    section 4.4. *)
Record BlockScope : Type := {
  bs_dtype : string;
  bs_tag : string;
  bs_num_per_block : Z
}.

(** Modelled from the spec: the Sub-Buffer Cursor that
    [BlockScope.get_block_buffer] returns, a position in one scratch slot. *)
Record cursor : Type := {
  cu_index : nat;
  cu_chunk : Z;
  cu_shape : Z * Z;
  cu_pos : nat
}.

(** Modelled from the spec: [scope.write_block(index, block)]; persist
    [block] as slot [index], overwriting what the slot held. *)
Definition write_block (scope : BlockScope) (index : nat) (block : list sample) : M unit :=
  io DatasetWriteError ;;;
  w <- read_world ;;
  match scratch w with
  | None => raise DatasetWriteError
  | Some slots =>
      set_scratch (Some (<[index := block]> slots)) ;;;
      log (EWriteSlot index (length block))
  end.

(** Modelled from the spec: [scope.get_block_buffer(index, chunk, shape)];
    a cursor over slot [index], SlotNotFound when the slot was never
    written. *)
Definition get_block_buffer (scope : BlockScope) (index : nat) (chunk : Z)
    (shape : Z * Z) : M cursor :=
  io DatasetReadError ;;;
  w <- read_world ;;
  match scratch w with
  | None => raise (SlotNotFound index)
  | Some slots =>
      match slots !! index with
      | None => raise (SlotNotFound index)
      | Some _ =>
          log (ECursorNew index chunk) ;;;
          ret {| cu_index := index; cu_chunk := chunk; cu_shape := shape; cu_pos := 0 |}
      end
  end.

(** Modelled from the spec: the rows of its slot a cursor has not yet
    yielded. *)
Definition cursor_rest (slots : gmap nat (list sample)) (c : cursor) : list sample :=
  match slots !! cu_index c with
  | None => []
  | Some rows => drop (cu_pos c) rows
  end.

(** Modelled from the spec: [next(buffer)] on a cursor; the next [chunk]
    rows of the slot (the last chunk is the shorter rest); [None] is
    StopIteration, once the slot is exhausted. *)
Definition cursor_next (c : cursor) : M (option (list sample * cursor)) :=
  io DatasetReadError ;;;
  w <- read_world ;;
  match scratch w with
  | None => raise (SlotNotFound (cu_index c))
  | Some slots =>
      match slots !! cu_index c with
      | None => raise (SlotNotFound (cu_index c))
      | Some rows =>
          match drop (cu_pos c) rows with
          | [] => log (ECursorNext (cu_index c) None) ;;; ret None
          | rest =>
              let size := Z.to_nat (cu_chunk c) in
              let block := take size rest in
              log (ECursorNext (cu_index c) (Some (length block))) ;;;
              ret (Some (block,
                         {| cu_index := cu_index c; cu_chunk := cu_chunk c;
                            cu_shape := cu_shape c; cu_pos := cu_pos c + size |}))
          end
      end
  end.

(** Modelled from the spec: [BlockScope.__enter__]; the scope is acquired
    with no slot in it. *)
Definition scope_enter (dtype tag : string) (num_per_block : Z) : M BlockScope :=
  log (EScopeEnter dtype tag num_per_block) ;;;
  set_scratch (Some ∅) ;;;
  ret {| bs_dtype := dtype; bs_tag := tag; bs_num_per_block := num_per_block |}.

(** Modelled from the spec: [BlockScope.__exit__]; every scratch slot is
    deleted. *)
Definition scope_exit (scope : BlockScope) : M unit :=
  set_scratch None ;;;
  log EScopeExit.

(** Modelled from the spec: [with BlockScope(dtype, tag, num_per_block) as
    scope: body], the scoped resource of section 4.4.  The scope
    is released on every exit path of the body, and an exception of the body
    is re-raised after the release.  A body that never ends never reaches
    the exit. *)
Definition with_BlockScope {A} (dtype tag : string) (num_per_block : Z)
    (body : BlockScope -> M A) : M A :=
  fun w =>
    match scope_enter dtype tag num_per_block w with
    | (Ok scope, w1) =>
        match body scope w1 with
        | (Diverge, w2) => (Diverge, w2)
        | (r, w2) => (r, snd (scope_exit scope w2))
        end
    | (Raise e, w1) => (Raise e, w1)
    | (Diverge, w1) => (Diverge, w1)
    end.

End Blocks.

Arguments BlockBuffer : clear implicits.
Arguments cursor : clear implicits.

End Blocks.

(** ** src/utils/shuffle.py *)

Module Shuffle.

Import Blocks.

Definition ALGORITHMS : list string := ["external_sort"; "external_shuffle"].

(** [a / b] on two ints: Python's true division. *)
Definition int_truediv (a b : Z) : outcome Q :=
  if (b =? 0)%Z then Raise ZeroDivisionError
  else Ok (inject_Z a / inject_Z b)%Q.

(** [a // b] with an int [a] and a float [b]. *)
Definition int_floordiv_float (a : Z) (b : Q) : outcome Z :=
  if Qeq_bool b 0 then Raise ZeroDivisionError
  else Ok (Qfloor (inject_Z a / b)).

Section Shuffle.

Context {sample rng : Type}.

(** [np.random.shuffle]: numpy's in-place row shuffle, drawing on the
    generator state. *)
Variable np_random_shuffle : rng -> list sample -> list sample * rng.

Local Abbreviation M := (M sample rng).

Definition random_shuffle (block : list sample) : M (list sample) :=
  fun w =>
    let '(block', g) := np_random_shuffle (gen w) block in
    (Ok block',
     {| dataset := dataset w; output := output w; scratch := scratch w;
        gen := g; io_budget := io_budget w; trace := trace w |}).

(** Lines 31-55: the body is [pass]. *)
Definition external_sort (dtype : string) (n num_features num_per_block : Z)
    (train_path : string) : M unit :=
  ret tt.

(** Lines 83-87, [for i, block in enumerate(blocks)]. *)
Fixpoint phase1 (fuel : nat) (scope : BlockScope) (num_per_block : Z)
    (num_buffers : Q) (shape : Z * Z) (blocks : BlockBuffer) (i : nat)
    (buffers : list cursor) : M (list cursor) :=
  match fuel with
  | O => diverge
  | S fuel' =>
      r <- BlockBuffer_next blocks ;;
      match r with
      | None => ret buffers
      | Some (block, blocks') =>
          block' <- random_shuffle block ;;
          write_block scope i block' ;;;
          chunk <- lift (int_floordiv_float num_per_block num_buffers) ;;
          buffer <- get_block_buffer scope i chunk shape ;;
          phase1 fuel' scope num_per_block num_buffers shape blocks' (S i)
            (buffers ++ [buffer])
      end
  end.

(** Lines 91-100, [for i, buffer in enumerate(buffers[:])]. *)
Fixpoint pull (buffers : list cursor) (current_block : option (list sample))
    (remaining_buffers : list cursor) : M (option (list sample) * list cursor) :=
  match buffers with
  | [] => ret (current_block, remaining_buffers)
  | buffer :: rest =>
      r <- cursor_next buffer ;;
      match r with
      | None => pull rest current_block remaining_buffers
      | Some (block, buffer') =>
          pull rest
            (Some (match current_block with
                   | None => block
                   | Some cb => cb ++ block
                   end))
            (remaining_buffers ++ [buffer'])
      end
  end.

(** Lines 89-104, [while buffers]. *)
Fixpoint phase2 (fuel : nat) (writer : BlockWriter) (buffers : list cursor) : M unit :=
  match buffers with
  | [] => ret tt
  | _ :: _ =>
      match fuel with
      | O => diverge
      | S fuel' =>
          log (ERound (length buffers)) ;;;
          r <- pull buffers None [] ;;
          let '(current_block, remaining_buffers) := r in
          match current_block with
          | Some cb =>
              cb' <- random_shuffle cb ;;
              BlockWriter_write writer cb'
          | None => ret tt
          end ;;;
          phase2 fuel' writer remaining_buffers
      end
  end.

(** Lines 78-104, the body of the [with] statement. *)
Definition external_shuffle_body (fuel : nat) (dtype : string)
    (num_features num_per_block : Z) (train_path : string) (num_buffers : Q)
    (scope : BlockScope) : M unit :=
  let shape := (num_per_block, num_features + 1)%Z in
  writer <- BlockWriter_new dtype num_per_block train_path ;;
  blocks <- BlockBuffer_new dtype num_per_block train_path shape ;;
  buffers <- phase1 fuel scope num_per_block num_buffers shape blocks 0 [] ;;
  phase2 fuel writer buffers.

(** Lines 58-104.  [fuel] bounds the iterations of each of the two loops. *)
Definition external_shuffle (fuel : nat) (dtype : string)
    (n num_features num_per_block : Z) (train_path : string) : M unit :=
  num_buffers <- lift (int_truediv n num_per_block) ;;
  with_BlockScope "float64" "samplesort" num_per_block
    (external_shuffle_body fuel dtype num_features num_per_block train_path
       num_buffers).

(** Lines 16-28. *)
Definition shuffle_train (fuel : nat) (algorithm dtype : string)
    (n num_features num_per_block : Z) (train_path : string) : M unit :=
  if bool_decide (algorithm ∈ ALGORITHMS) then
    if String.eqb algorithm "external_sort" then
      external_sort dtype n num_per_block num_features train_path
    else
      external_shuffle fuel dtype n num_per_block num_features train_path
  else raise (AssertionError "Invalid shuffling algorithm provided.").

End Shuffle.

End Shuffle.

(** ** Measures on worlds, cursors and traces *)

Section Measures.

Context {sample rng : Type}.

Import Blocks.

(** The scratch slots of a world; none while no scope is active. *)
Definition slots (w : world sample rng) : gmap nat (list sample) :=
  default ∅ (scratch w).

(** The rows a cursor collection has still to yield. *)
Definition pending (m : gmap nat (list sample)) (cs : list cursor) : list sample :=
  concat (map (cursor_rest m) cs).

(** One more than the rows left, summed over the collection: the variant of
    the merge loop. *)
Definition weight (m : gmap nat (list sample)) (cs : list cursor) : nat :=
  sum_list (map (fun c => S (length (cursor_rest m c))) cs).

(** A cursor that yields at least one row per call. *)
Definition advancing (c : cursor) : Prop := (1 <= cu_chunk c)%Z.


End Measures.

(** The events a run added to the trace, oldest first. *)
Definition new_events (before after : list event) : list event :=
  rev (take (length after - length before) after).

Definition rounds (t : list event) : nat := length (filter is_round t).

Definition writes (t : list event) : list event := filter is_write t.

(** numpy's item size of the two element types the presets and the scope use. *)
Definition np_itemsize (dtype : string) : option Z :=
  if String.eqb dtype "float64" then Some 8%Z
  else if String.eqb dtype "uint8" then Some 1%Z
  else None.

(** ** Relations between the world before and after a step *)

Section Relations.

Context {sample rng : Type}.

Import Blocks.

(** Worlds that differ at most in the trace and in the I/O budget left. *)
Definition same (w w' : world sample rng) : Prop :=
  dataset w' = dataset w /\ output w' = output w /\
  scratch w' = scratch w /\
  (io_budget w = None -> io_budget w' = None).

Definition has_slot (m : gmap nat (list sample)) (c : cursor) : Prop :=
  is_Some (m !! cu_index c).

(** The rows of [current_block]; [None] holds none. *)
Definition flat (current_block : option (list sample)) : list sample :=
  default [] current_block.

Definition step_event (e : event) : bool := is_io e || is_round e.

(** What every step of the two phases keeps: the dataset is not written,
    the output file is only appended to, the trace only grows, by I/O and
    round events, and an active scope stays active. *)
Definition grows (w w' : world sample rng) : Prop :=
  dataset w' = dataset w /\
  (exists o, output w' = output w ++ o) /\
  (exists t, trace w' = t ++ trace w /\ Forall (fun e => step_event e = true) t) /\
  (is_Some (scratch w) -> is_Some (scratch w')).

(** Outcomes other than the two configuration errors. *)
Definition tame {A} (r : outcome A) : Prop :=
  match r with
  | Raise (AssertionError _) | Raise (UnsupportedType _) => False
  | _ => True
  end.

Definition safe {A} (m : M sample rng A) : Prop :=
  forall w, grows w (snd (m w)) /\ tame (fst (m w)).

End Relations.

(** ** Relations kept by every outcome of a step *)

Section Frames.

Context {sample rng : Type}.

(** [m] takes every world to an [R]-related world, whatever its outcome. *)
Definition keeps {A} (R : world sample rng -> world sample rng -> Prop)
    (m : M sample rng A) : Prop :=
  forall w, R w (m w).2.

(** Neither file is written. *)
Definition untouched (w w' : world sample rng) : Prop :=
  dataset w' = dataset w /\ output w' = output w.

(** The trace grows by events that all satisfy [Q]. *)
Definition extends (Q : event -> Prop) (w w' : world sample rng) : Prop :=
  exists t, trace w' = t ++ trace w /\ Forall Q t.

(** Events other than a write to the output file or the start of a round. *)
Definition quiet (e : event) : Prop :=
  is_write e = false /\ is_round e = false.

(** Events of a merge over at most [cursors] cursors of chunk size at most
    [chunk]: no round has more cursors, no chunk more rows, and no write
    more than [cursors * chunk] rows. *)
Definition within (cursors chunk : nat) (e : event) : Prop :=
  match e with
  | ERound k => k <= cursors
  | ECursorNext _ (Some r) => r <= chunk
  | EWrite r => r <= cursors * chunk
  | _ => True
  end.

(** Events other than a read of the dataset file, a write of a scratch slot
    or the creation of a cursor. *)
Definition merging (e : event) : Prop :=
  match e with
  | EReadBlock _ | EWriteSlot _ _ | ECursorNew _ _ => False
  | _ => True
  end.

End Frames.

(** ** The cursor collection between the two phases *)

Section Layout.

Context {sample : Type}.

Import Blocks.

(** The cursor [get_block_buffer] returns for slot [index]. *)
Definition cursor_at (chunk : Z) (shape : Z * Z) (index : nat) : cursor :=
  {| cu_index := index; cu_chunk := chunk; cu_shape := shape; cu_pos := 0 |}.

(** A cursor of chunk size [c] with exactly [rows] rows of its slot left. *)
Definition uniform (m : gmap nat (list sample)) (c rows : nat) (cu : cursor) : Prop :=
  has_slot m cu /\ Z.to_nat (cu_chunk cu) = c /\
  length (cursor_rest m cu) = rows.

End Layout.

(** ** Concrete instances *)

Module Demo.

(** A generator whose shuffle reverses the rows and counts its calls. *)
Definition rev_shuffle (g : nat) (block : list Z) : list Z * nat :=
  (rev block, S g).

Definition disk (file : list Z) (budget : option nat) : world Z nat :=
  {| dataset := file; output := []; scratch := None; gen := 0%nat;
     io_budget := budget; trace := [] |}.

(** Scenario A, shrunk: 8 samples in blocks of 4. *)
Definition scenario_A : list Z := [1; 2; 3; 4; 5; 6; 7; 8]%Z.

(** Scenario B: 10 samples in one block of 10. *)
Definition scenario_B : list Z := [1; 2; 3; 4; 5; 6; 7; 8; 9; 10]%Z.

Definition writer : Blocks.BlockWriter :=
  {| Blocks.bw_dtype := "float64"; Blocks.bw_num_per_block := 1;
     Blocks.bw_path := "data/train" |}.

(** The world Phase 1 leaves for 2 samples in blocks of 1: two slots of one
    row each. *)
Definition merge_world : world Z nat :=
  {| dataset := [1; 2]%Z; output := [];
     scratch := Some (<[1%nat := [2%Z]]> (<[0%nat := [1%Z]]> ∅));
     gen := 2%nat; io_budget := None; trace := [] |}.

(** Cursors over the two slots, of chunk size [chunk]. *)
Definition merge_cursors (chunk : Z) : list (Blocks.cursor) :=
  [ {| Blocks.cu_index := 0; Blocks.cu_chunk := chunk;
       Blocks.cu_shape := (1, 4)%Z; Blocks.cu_pos := 0 |};
    {| Blocks.cu_index := 1; Blocks.cu_chunk := chunk;
       Blocks.cu_shape := (1, 4)%Z; Blocks.cu_pos := 0 |} ].


(** Arguments without a preset: 10 samples of 3 features in float64, and a
    memory budget of [buffer] megabytes. *)
Definition custom_args (buffer : Q) : Mlml.arguments :=
  {| Mlml.mnist := false; Mlml.spam := false; Mlml.cifar_10 := false;
     Mlml.dtype := "float64"; Mlml.train := "data/train"; Mlml.test := "data/test";
     Mlml.n := 10; Mlml.nt := 0; Mlml.k := 10; Mlml.d := 3; Mlml.one_hot := "False";
     Mlml.buffer := buffer; Mlml.num_per_block := None |}.

(** Arguments with the [mnist] preset and the caller's own [--n], [--d] and
    [--dtype]. *)
Definition mnist_args (n d : Z) (dtype : string) : Mlml.arguments :=
  {| Mlml.mnist := true; Mlml.spam := false; Mlml.cifar_10 := false;
     Mlml.dtype := dtype; Mlml.train := "data/train"; Mlml.test := "data/test";
     Mlml.n := n; Mlml.nt := 0; Mlml.k := 10; Mlml.d := d; Mlml.one_hot := "False";
     Mlml.buffer := 10; Mlml.num_per_block := None |}.

(** A scope, a reader at the start of the dataset file and a world inside
    the scope, as Phase 1 finds them for blocks of 4 samples. *)
Definition scope : Blocks.BlockScope :=
  {| Blocks.bs_dtype := "float64"; Blocks.bs_tag := "samplesort";
     Blocks.bs_num_per_block := 4 |}.

Definition reader : Blocks.BlockBuffer :=
  {| Blocks.bb_dtype := "float64"; Blocks.bb_num_per_block := 4;
     Blocks.bb_path := "data/train"; Blocks.bb_shape := (4, 4)%Z;
     Blocks.bb_pos := 0 |}.

Definition scoped (file : list Z) : world Z nat :=
  {| dataset := file; output := []; scratch := Some ∅; gen := 0%nat;
     io_budget := None; trace := [] |}.

End Demo.

(** * Properties *)

(** ** Budget arithmetic *)

Module MlmlFacts.

Import Mlml.




(** *** Further properties of [preprocess_arguments] *)

Lemma presets_buffer (a0 : arguments) : buffer (presets a0) = buffer a0.
Proof.
  unfold presets.
  destruct (mnist a0); cbn; destruct (spam a0); cbn;
    destruct (cifar_10 a0); reflexivity.
Qed.

Lemma presets_agree (a0 a0' : arguments) :
  mnist a0' = mnist a0 -> spam a0' = spam a0 -> cifar_10 a0' = cifar_10 a0 ->
  dtype a0' = dtype a0 -> d a0' = d a0 -> n a0' = n a0 ->
  dtype (presets a0') = dtype (presets a0) /\
  d (presets a0') = d (presets a0) /\ n (presets a0') = n (presets a0).
Proof.
  intros Hm Hs Hc Ht Hd Hn. unfold presets. rewrite Hm.
  destruct (mnist a0); cbn; rewrite ?Hs; destruct (spam a0); cbn;
    rewrite ?Hc; destruct (cifar_10 a0); cbn; auto.
Qed.

Lemma preprocess_arguments_ok (bytes_per_dtype : string -> option Z)
    (a0 : arguments) (w : Z) :
  bytes_per_dtype (dtype (presets a0)) = Some w ->
  ((d (presets a0) + 1) * w <> 0)%Z ->
  preprocess_arguments bytes_per_dtype a0 =
  Ok (set_num_per_block
        (Z.min (Qfloor (buffer a0 * inject_Z (10 ^ 6)
                        / inject_Z ((d (presets a0) + 1) * w)))
               (n (presets a0)))
        (presets a0)).
Proof.
  intros Hw Hne. unfold preprocess_arguments, float_floordiv.
  rewrite Hw, presets_buffer.
  by destruct (Z.eqb_spec ((d (presets a0) + 1) * w) 0).
Qed.

Lemma inject_Z_pos (y : Z) : (0 < y)%Z -> (0 < inject_Z y)%Q.
Proof. intros Hy. change (inject_Z 0 < inject_Z y)%Q. by rewrite <- Zlt_Qlt. Qed.



Lemma Qfloor_div_mono (x x' : Q) (y : Z) :
  (0 < y)%Z -> (x <= x')%Q ->
  (Qfloor (x / inject_Z y) <= Qfloor (x' / inject_Z y))%Z.
Proof.
  intros Hy Hle. apply Qfloor_resp_le. unfold Qdiv.
  apply Qmult_le_compat_r; [exact Hle |].
  apply Qlt_le_weak, Qinv_lt_0_compat. by apply inject_Z_pos.
Qed.

(** X12: the block size grows with the memory budget.  Two argument
    dictionaries that differ in [--buffer] only, the second with the larger
    budget, give block sizes in the same order. *)
Theorem num_per_block_monotone (bytes_per_dtype : string -> option Z)
    (a0 a0' : arguments) (w : Z) :
  mnist a0' = mnist a0 -> spam a0' = spam a0 -> cifar_10 a0' = cifar_10 a0 ->
  dtype a0' = dtype a0 -> d a0' = d a0 -> n a0' = n a0 ->
  bytes_per_dtype (dtype (presets a0)) = Some w ->
  (0 < w)%Z -> (0 <= d (presets a0))%Z ->
  (buffer a0 <= buffer a0')%Q ->
  exists a a' q q',
    preprocess_arguments bytes_per_dtype a0 = Ok a /\
    preprocess_arguments bytes_per_dtype a0' = Ok a' /\
    num_per_block a = Some q /\ num_per_block a' = Some q' /\
    (q <= q')%Z.
Proof.
  intros Hm Hs Hc Ht Hd Hn Hw Hpos Hd0 Hle.
  destruct (presets_agree a0 a0' Hm Hs Hc Ht Hd Hn) as (Et & Ed & En).
  assert (Hb : (0 < (d (presets a0) + 1) * w)%Z) by lia.
  rewrite (preprocess_arguments_ok bytes_per_dtype a0 w Hw) by lia.
  rewrite (preprocess_arguments_ok bytes_per_dtype a0' w)
    by (rewrite ?Et, ?Ed; first [exact Hw | lia]).
  do 4 eexists. split; [reflexivity |]. split; [reflexivity |].
  split; [reflexivity |]. split; [reflexivity |].
  rewrite Ed, En. apply Z.min_le_compat_r.
  apply Qfloor_div_mono; [exact Hb |].
  apply Qmult_le_compat_r; [exact Hle | done].
Qed.

(** X13: a dataset preset that fixes the element type, [mnist] or
    [cifar-10], leaves nothing of the result to the caller but the memory
    budget: two argument dictionaries with the same flags and the same
    [--buffer] give the same outcome, whatever [--n], [--d], [--dtype] and
    the paths the caller passed. *)
Theorem preset_overrides_caller (bytes_per_dtype : string -> option Z)
    (a0 a0' : arguments) :
  mnist a0 = true \/ cifar_10 a0 = true ->
  mnist a0' = mnist a0 -> spam a0' = spam a0 -> cifar_10 a0' = cifar_10 a0 ->
  buffer a0' = buffer a0 ->
  preprocess_arguments bytes_per_dtype a0' =
  preprocess_arguments bytes_per_dtype a0.
Proof.
  destruct a0 as [m s c t tr te n0 nt0 k0 d0 oh b npb],
           a0' as [m' s' c' t' tr' te' n0' nt0' k0' d0' oh' b' npb'].
  cbn. intros Hflag -> -> -> ->.
  unfold preprocess_arguments, presets.
  destruct m, s, c; cbn; try reflexivity; by destruct Hflag.
Qed.

Lemma num_per_block_monotone_witness :
  exists a a' q q',
    preprocess_arguments np_itemsize (Demo.custom_args 10) = Ok a /\
    preprocess_arguments np_itemsize (Demo.custom_args 20) = Ok a' /\
    num_per_block a = Some q /\ num_per_block a' = Some q' /\
    (q <= q')%Z.
Proof.
  apply (num_per_block_monotone np_itemsize (Demo.custom_args 10)
           (Demo.custom_args 20) 8);
    [reflexivity | reflexivity | reflexivity | reflexivity | reflexivity
    | reflexivity | reflexivity | lia | cbn; lia | vm_compute; discriminate].
Defined.

Lemma preset_overrides_caller_witness :
  preprocess_arguments np_itemsize (Demo.mnist_args 5 2 "float32") =
  preprocess_arguments np_itemsize (Demo.mnist_args 60000 784 "uint8").
Proof.
  apply (preset_overrides_caller np_itemsize
           (Demo.mnist_args 60000 784 "uint8") (Demo.mnist_args 5 2 "float32"));
    [by left | reflexivity ..].
Defined.

End MlmlFacts.

(** ** The shuffle engine *)

Module ShuffleFacts.

Import Blocks Shuffle.

Section Safety.

Context {sample rng : Type}.

Implicit Types w : world sample rng.

Lemma grows_refl w : grows w w.
Proof.
  repeat split; auto.
  - exists []. by rewrite app_nil_r.
  - exists []. split; [done | constructor].
Qed.

Lemma grows_trans w1 w2 w3 : grows w1 w2 -> grows w2 w3 -> grows w1 w3.
Proof.
  intros (Hd & [o Ho] & (t & Ht & Ft) & Hs) (Hd' & [o' Ho'] & (t' & Ht' & Ft') & Hs').
  repeat split.
  - congruence.
  - exists (o ++ o'). rewrite Ho', Ho. by rewrite app_assoc.
  - exists (t' ++ t). split.
    + rewrite Ht', Ht. by rewrite app_assoc.
    + by apply Forall_app.
  - auto.
Qed.

Lemma safe_ret {A} (a : A) : safe (ret (sample := sample) (rng := rng) a).
Proof. intros w. split; [apply grows_refl | exact I]. Qed.

Lemma safe_diverge {A} : safe (diverge (sample := sample) (rng := rng) (A := A)).
Proof. intros w. split; [apply grows_refl | exact I]. Qed.

Lemma safe_read_world : safe (read_world (sample := sample) (rng := rng)).
Proof. intros w. split; [apply grows_refl | exact I]. Qed.

Lemma safe_lift {A} (r : outcome A) :
  tame r -> safe (lift (sample := sample) (rng := rng) r).
Proof. intros Hr w. split; [apply grows_refl | exact Hr]. Qed.

Lemma safe_bind {A B} (m : M sample rng A) (f : A -> M sample rng B) :
  safe m -> (forall a, safe (f a)) -> safe (bind m f).
Proof.
  intros Hm Hf w. unfold bind. specialize (Hm w).
  destruct (m w) as [[a | e | ] w1]; cbn in *; try exact Hm.
  destruct (Hf a w1) as [Hg Ht]. destruct Hm as [Hg1 _].
  split; [eapply grows_trans; eassumption | exact Ht].
Qed.

Lemma safe_log (e : event) :
  step_event e = true -> safe (log (sample := sample) (rng := rng) e).
Proof.
  intros He w. split; [| exact I]. cbn. repeat split; auto.
  - exists []. by rewrite app_nil_r.
  - exists [e]. split; [done | by constructor].
Qed.

Lemma safe_io (e : exn) :
  tame (Raise e : outcome unit) -> safe (io (sample := sample) (rng := rng) e).
Proof.
  intros He w. unfold io.
  destruct (io_budget w) as [[| k] |]; cbn; (split; [| done]);
    try apply grows_refl.
  repeat split; cbn; auto.
  - exists []. by rewrite app_nil_r.
  - exists []. split; [done | constructor].
Qed.

Lemma safe_BlockBuffer_next (b : BlockBuffer) :
  safe (BlockBuffer_next (sample := sample) (rng := rng) b).
Proof.
  unfold BlockBuffer_next.
  apply safe_bind; [by apply safe_io |]. intros _.
  apply safe_bind; [apply safe_read_world |]. intros w0.
  destruct (drop (bb_pos b) (dataset w0));
    (apply safe_bind; [by apply safe_log | intros _; apply safe_ret]).
Qed.

Lemma safe_BlockWriter_write (wr : BlockWriter) (block : list sample) :
  safe (BlockWriter_write (rng := rng) wr block).
Proof.
  intros w. unfold BlockWriter_write, bind, io, read_world, set_output, log.
  destruct (io_budget w) as [[| k] |]; cbn; (split; [| done]);
    try apply grows_refl.
  all: repeat split; cbn; auto; [by eexists | exists [EWrite (length block)]].
  all: split; [done | by constructor].
Qed.

Lemma safe_write_block (scope : BlockScope) (i : nat) (block : list sample) :
  safe (write_block (rng := rng) scope i block).
Proof.
  intros w. unfold write_block, bind, io, read_world, set_scratch, log, raise.
  destruct (io_budget w) as [[| k] |]; cbn;
    destruct (scratch w) as [m |] eqn:Hs; cbn; (split; [| done]);
    try apply grows_refl.
  all: repeat split; cbn; auto;
    try (exists []; by rewrite app_nil_r);
    try (exists []; split; [done | constructor]);
    try (exists [EWriteSlot i (length block)]; split; [done | by constructor]);
    try (rewrite Hs; auto).
Qed.

Lemma safe_get_block_buffer (scope : BlockScope) (i : nat) (chunk : Z)
    (shape : Z * Z) :
  safe (get_block_buffer (sample := sample) (rng := rng) scope i chunk shape).
Proof.
  unfold get_block_buffer.
  apply safe_bind; [by apply safe_io |]. intros _.
  apply safe_bind; [apply safe_read_world |]. intros w0.
  destruct (scratch w0) as [m |]; [| by apply safe_lift].
  destruct (m !! i); [| by apply safe_lift].
  apply safe_bind; [by apply safe_log | intros _; apply safe_ret].
Qed.

Lemma safe_cursor_next (c : cursor) :
  safe (cursor_next (sample := sample) (rng := rng) c).
Proof.
  unfold cursor_next.
  apply safe_bind; [by apply safe_io |]. intros _.
  apply safe_bind; [apply safe_read_world |]. intros w0.
  destruct (scratch w0) as [m |]; [| by apply safe_lift].
  destruct (m !! cu_index c) as [rows |]; [| by apply safe_lift].
  destruct (drop (cu_pos c) rows);
    (apply safe_bind; [by apply safe_log | intros _; apply safe_ret]).
Qed.

Lemma safe_int_floordiv_float (a : Z) (b : Q) :
  safe (lift (sample := sample) (rng := rng) (int_floordiv_float a b)).
Proof.
  apply safe_lift. unfold int_floordiv_float. by destruct (Qeq_bool b 0).
Qed.

Variable np_random_shuffle : rng -> list sample -> list sample * rng.

Lemma safe_random_shuffle (block : list sample) :
  safe (random_shuffle np_random_shuffle block).
Proof.
  intros w. unfold random_shuffle.
  destruct (np_random_shuffle (gen w) block) as [b g]. cbn.
  split; [| done]. repeat split; cbn; auto.
  - exists []. by rewrite app_nil_r.
  - exists []. split; [done | constructor].
Qed.

Lemma safe_phase1 (fuel : nat) (scope : BlockScope) (num_per_block : Z)
    (num_buffers : Q) (shape : Z * Z) (blocks : BlockBuffer) (i : nat)
    (buffers : list cursor) :
  safe (phase1 np_random_shuffle fuel scope num_per_block num_buffers shape
          blocks i buffers).
Proof.
  revert blocks i buffers.
  induction fuel as [| fuel IH]; intros blocks i buffers; cbn.
  - apply safe_diverge.
  - apply safe_bind; [apply safe_BlockBuffer_next |].
    intros [[block blocks'] |]; [| apply safe_ret].
    apply safe_bind; [apply safe_random_shuffle |]. intros block'.
    apply safe_bind; [apply safe_write_block |]. intros _.
    apply safe_bind; [apply safe_int_floordiv_float |]. intros chunk.
    apply safe_bind; [apply safe_get_block_buffer |]. intros buffer.
    apply IH.
Qed.

Lemma safe_pull (buffers : list cursor) (cb : option (list sample))
    (rem : list cursor) :
  safe (pull (rng := rng) buffers cb rem).
Proof.
  revert cb rem. induction buffers as [| buffer rest IH]; intros cb rem; cbn.
  - apply safe_ret.
  - apply safe_bind; [apply safe_cursor_next |].
    intros [[block buffer'] |]; apply IH.
Qed.

Lemma safe_phase2 (fuel : nat) (writer : BlockWriter) (buffers : list cursor) :
  safe (phase2 np_random_shuffle fuel writer buffers).
Proof.
  revert buffers. induction fuel as [| fuel IH]; intros [| b bs]; cbn;
    try apply safe_ret; try apply safe_diverge.
  apply safe_bind; [by apply safe_log |]. intros _.
  apply safe_bind; [apply (safe_pull (b :: bs) None []) |]. intros [[cb |] rem].
  - apply safe_bind; [| intros _; apply IH].
    apply safe_bind; [apply safe_random_shuffle |]. intros cb'.
    apply safe_BlockWriter_write.
  - apply safe_bind; [apply safe_ret | intros _; apply IH].
Qed.

End Safety.

Section Runs.
Context {sample rng : Type}.
Implicit Types w : world sample rng.
Implicit Types m : gmap nat (list sample).

Lemma same_refl w : same w w.
Proof. by repeat split. Qed.

Lemma same_trans w1 w2 w3 : same w1 w2 -> same w2 w3 -> same w1 w3.
Proof.
  intros (? & ? & ? & ?) (? & ? & ? & ?). repeat split; try congruence. auto.
Qed.

Lemma same_slots w w' : same w w' -> slots w' = slots w.
Proof. intros (_ & _ & Hs & _). unfold slots. by rewrite Hs. Qed.

Lemma pending_app m (cs1 cs2 : list cursor) :
  pending m (cs1 ++ cs2) = pending m cs1 ++ pending m cs2.
Proof. unfold pending. by rewrite map_app, concat_app. Qed.

Lemma weight_app m (cs1 cs2 : list cursor) :
  weight m (cs1 ++ cs2) = weight m cs1 + weight m cs2.
Proof.
  unfold weight. induction cs1 as [| c cs1 IH]; cbn; [done |].
  rewrite IH. lia.
Qed.

Lemma pending_cons m (c : cursor) (cs : list cursor) :
  pending m (c :: cs) = cursor_rest m c ++ pending m cs.
Proof. reflexivity. Qed.

Lemma weight_cons m (c : cursor) (cs : list cursor) :
  weight m (c :: cs) = S (length (cursor_rest m c)) + weight m cs.
Proof. reflexivity. Qed.

Lemma cursor_next_run (c : cursor) w :
  match cursor_next c w with
  | (Ok None, w') => same w w' /\ cursor_rest (slots w) c = []
  | (Ok (Some (block, c')), w') =>
      same w w' /\ cursor_rest (slots w) c <> [] /\
      block = take (Z.to_nat (cu_chunk c)) (cursor_rest (slots w) c) /\
      cursor_rest (slots w) c' = drop (Z.to_nat (cu_chunk c)) (cursor_rest (slots w) c) /\
      cu_index c' = cu_index c /\ cu_chunk c' = cu_chunk c
  | (Raise e, w') => same w w' /\ (io_budget w = None -> ~ has_slot (slots w) c)
  | (Diverge, _) => False
  end.
Proof.
  unfold cursor_next, bind, io, read_world, slots, cursor_rest, has_slot.
  destruct (io_budget w) as [[| k] |] eqn:Hb; cbn;
    [ by repeat split | |];
    (destruct (scratch w) as [m |] eqn:Hs; cbn;
     [ destruct (m !! cu_index c) as [rows |] eqn:Hm; cbn;
       [ destruct (drop (cu_pos c) rows) as [| r rest] eqn:Hd; cbn | ] | ]).
  all: unfold same; cbn; rewrite ?Hs, ?Hm, ?Hd; cbn.
  all: repeat split; auto; try done.
  all: try congruence.
  all: by rewrite <- Hd, drop_drop.
Qed.

Lemma pull_run (buffers : list cursor) (cb : option (list sample))
    (rem : list cursor) w :
  match pull buffers cb rem w with
  | (Ok (cb', rem'), w') =>
      same w w' /\
      flat cb' ++ pending (slots w) rem' ≡ₚ
        flat cb ++ pending (slots w) rem ++ pending (slots w) buffers /\
      (Forall advancing buffers ->
       weight (slots w) rem' + length buffers <=
         weight (slots w) rem + weight (slots w) buffers) /\
      (forall P : nat -> Z -> Prop,
         Forall (fun c => P (cu_index c) (cu_chunk c)) rem ->
         Forall (fun c => P (cu_index c) (cu_chunk c)) buffers ->
         Forall (fun c => P (cu_index c) (cu_chunk c)) rem') /\
      (Forall (fun c => (cu_chunk c <= 0)%Z) buffers -> flat cb' = flat cb)
  | (Raise e, w') =>
      same w w' /\
      (io_budget w = None -> ~ Forall (has_slot (slots w)) buffers)
  | (Diverge, _) => False
  end.
Proof.
  revert cb rem w.
  induction buffers as [| buffer rest IH]; intros cb rem w; cbn [pull].
  - unfold ret. split; [apply same_refl |]. split; [| split].
    + change (pending (slots w) []) with (@nil sample). by rewrite !app_nil_r.
    + intros _. change (weight (slots w) []) with 0. cbn [length]. lia.
    + split; auto.
  - unfold bind. pose proof (cursor_next_run buffer w) as Hn.
    destruct (cursor_next buffer w) as [[[[block c'] |] | e |] w1];
      [ | | | done].
    + destruct Hn as (Hw & Hne & Hblock & Hrest & Hidx & Hchunk).
      specialize (IH (Some match cb with Some cb0 => cb0 ++ block | None => block end)
                    (rem ++ [c']) w1).
      destruct (pull rest _ _ w1) as [[[cb' rem'] | e |] w2]; [ | | done].
      * rewrite (same_slots _ _ Hw) in IH.
        destruct IH as (Hw' & Hperm & Hweight & Hall & Hflat).
        split; [eapply same_trans; eassumption |].
        split; [| split; [| split]].
        -- rewrite Hperm, pending_app, !pending_cons, Hrest.
           change (pending (slots w) []) with (@nil sample).
           rewrite app_nil_r.
           rewrite <- (take_drop (Z.to_nat (cu_chunk buffer))
                         (cursor_rest (slots w) buffer)) at 2.
           rewrite <- Hblock. destruct cb; cbn [flat default]; solve_Permutation.
        -- intros Hadv. apply Forall_cons in Hadv as [Ha Hadv].
           specialize (Hweight Hadv).
           rewrite weight_app, !weight_cons, Hrest, length_drop in Hweight.
           change (weight (slots w) []) with 0 in Hweight.
           rewrite weight_cons. unfold advancing in Ha. cbn [length].
           destruct (cursor_rest (slots w) buffer); [done |].
           cbn [length] in *. lia.
        -- intros P Hrem Hbuf. apply Forall_cons in Hbuf as [Hb Hbuf].
           apply Hall; [| done]. apply Forall_app. split; [done |].
           constructor; [| constructor]. by rewrite Hidx, Hchunk.
        -- intros Hz. apply Forall_cons in Hz as [Hz0 Hz].
           rewrite (Hflat Hz), Hblock.
           replace (Z.to_nat (cu_chunk buffer)) with 0 by lia.
           destruct cb; cbn [flat default take]; by rewrite ?app_nil_r.
      * destruct IH as [Hw' Hno]. split; [eapply same_trans; eassumption |].
        intros Hb Hall. apply Forall_cons in Hall as [_ Hall].
        rewrite (same_slots _ _ Hw) in Hno. apply Hno; [| done].
        destruct Hw as (_ & _ & _ & Hio). auto.
    + destruct Hn as [Hw Hrest]. specialize (IH cb rem w1).
      destruct (pull rest _ _ w1) as [[[cb' rem'] | e |] w2]; [ | | done].
      * rewrite (same_slots _ _ Hw) in IH.
        destruct IH as (Hw' & Hperm & Hweight & Hall & Hflat).
        split; [eapply same_trans; eassumption |].
        split; [| split; [| split]].
        -- by rewrite Hperm, pending_cons, Hrest.
        -- intros Hadv. apply Forall_cons in Hadv as [Ha Hadv].
           specialize (Hweight Hadv). rewrite weight_cons. cbn [length]. lia.
        -- intros P Hrem Hbuf. apply Forall_cons in Hbuf as [Hb Hbuf]. by apply Hall.
        -- intros Hz. apply Forall_cons in Hz as [_ Hz]. by apply Hflat.
      * destruct IH as [Hw' Hno]. split; [eapply same_trans; eassumption |].
        intros Hb Hall. apply Forall_cons in Hall as [_ Hall].
        rewrite (same_slots _ _ Hw) in Hno. apply Hno; [| done].
        destruct Hw as (_ & _ & _ & Hio). auto.
    + destruct Hn as [Hw Hno]. split; [done |].
      intros Hb Hall. apply Forall_cons in Hall as [Hs _]. by apply Hno.
Qed.

Variable np_random_shuffle : rng -> list sample -> list sample * rng.
Hypothesis np_random_shuffle_perm :
  forall g block, (np_random_shuffle g block).1 ≡ₚ block.

Lemma random_shuffle_run (block : list sample) w :
  exists block' w',
    random_shuffle np_random_shuffle block w = (Ok block', w') /\
    block' ≡ₚ block /\ same w w' /\ io_budget w' = io_budget w /\
    trace w' = trace w.
Proof.
  unfold random_shuffle.
  pose proof (np_random_shuffle_perm (gen w) block) as Hp.
  destruct (np_random_shuffle (gen w) block) as [block' g].
  exists block'. eexists. split; [reflexivity |]. by repeat split.
Qed.

Lemma BlockWriter_write_run (wr : BlockWriter) (block : list sample) w :
  match BlockWriter_write wr block w with
  | (Ok _, w') =>
      dataset w' = dataset w /\ scratch w' = scratch w /\
      (io_budget w = None -> io_budget w' = None) /\
      output w' = output w ++ block
  | (Raise e, w') => io_budget w <> None
  | (Diverge, _) => False
  end.
Proof.
  unfold BlockWriter_write, bind, io, read_world, set_output, log.
  destruct (io_budget w) as [[| k] |] eqn:Hb; cbn; [done | |];
    repeat split; congruence.
Qed.

(** Lines 102-104: the combined buffer, if any, is shuffled and written. *)
Lemma emit_run (writer : BlockWriter) (cb : option (list sample)) w :
  exists r w',
    (match cb with
     | Some cb0 =>
         cb' <- random_shuffle np_random_shuffle cb0 ;;
         BlockWriter_write writer cb'
     | None => ret ()
     end) w = (r, w') /\
    match r with
    | Ok _ =>
        dataset w' = dataset w /\ scratch w' = scratch w /\
        (io_budget w = None -> io_budget w' = None) /\
        exists o, output w' = output w ++ o /\ o ≡ₚ flat cb
    | Raise _ => io_budget w <> None
    | Diverge => False
    end.
Proof.
  destruct cb as [cb0 |].
  - unfold bind.
    destruct (random_shuffle_run cb0 w) as (cb' & w2 & -> & Hcb & Hw2 & Hio & _).
    pose proof (BlockWriter_write_run writer cb' w2) as Hwr.
    destruct Hw2 as (Hd & Ho & Hs & Hb).
    destruct (BlockWriter_write writer cb' w2) as [[[] | e |] w3]; [ | | done];
      eexists; exists w3; (split; [reflexivity |]).
    + destruct Hwr as (Hd3 & Hs3 & Hio3 & Ho3).
      repeat split; try congruence; [auto |].
      exists cb'. split; [congruence | done].
    + congruence.
  - exists (Ok ()), w. split; [done |]. repeat split; auto.
    exists []. by rewrite app_nil_r.
Qed.

Lemma phase2_run (fuel : nat) (writer : BlockWriter) (buffers : list cursor) w :
  match phase2 np_random_shuffle fuel writer buffers w with
  | (Ok _, w') =>
      dataset w' = dataset w /\ scratch w' = scratch w /\
      (io_budget w = None -> io_budget w' = None) /\
      exists out, output w' = output w ++ out /\
                  out ≡ₚ pending (slots w) buffers
  | (Raise e, w') =>
      io_budget w = None -> ~ Forall (has_slot (slots w)) buffers
  | (Diverge, w') =>
      Forall advancing buffers -> fuel < weight (slots w) buffers
  end.
Proof.
  revert buffers w.
  induction fuel as [| fuel IH]; intros [| b bs] w; cbn [phase2].
  - unfold ret. repeat split; auto. exists []. by rewrite app_nil_r.
  - unfold diverge. intros _. rewrite weight_cons. lia.
  - unfold ret. repeat split; auto. exists []. by rewrite app_nil_r.
  - unfold bind at 1. cbn [log].
    set (w0 := {| dataset := dataset w; output := output w; scratch := scratch w;
                  gen := gen w; io_budget := io_budget w;
                  trace := ERound (length (b :: bs)) :: trace w |}).
    assert (Hw0 : same w w0) by (subst w0; unfold same; cbn; auto).
    unfold bind at 1. pose proof (pull_run (b :: bs) None [] w0) as Hp.
    rewrite (same_slots _ _ Hw0) in Hp.
    destruct (pull (b :: bs) None [] w0) as [[[cb rem] | e |] w1]; [ | | done].
    + destruct Hp as (Hw1 & Hperm & Hweight & Hall & _).
      change (pending (slots w) []) with (@nil sample) in Hperm.
      change (weight (slots w) []) with 0 in Hweight.
      cbn [flat default app] in Hperm.
      destruct (same_trans _ _ _ Hw0 Hw1) as (Hd1 & Ho1 & Hs1 & Hio1).
      unfold bind at 1.
      destruct (emit_run writer cb w1) as (r & w3 & -> & He).
      destruct r as [[] | e |]; [ | | done].
      2:{ intros Hb. exfalso. apply He. auto. }
      destruct He as (Hd3 & Hs3 & Hio3 & o & Ho3 & Hperm3).
      specialize (IH rem w3).
      assert (Hsl : slots w3 = slots w) by (unfold slots; by rewrite Hs3, Hs1).
      rewrite Hsl in IH.
      destruct (phase2 np_random_shuffle fuel writer rem w3) as [[[] | e |] w4].
      * destruct IH as (Hd4 & Hs4 & Hio4 & out & Ho4 & Hperm4).
        repeat split; try congruence; [auto |].
        exists (o ++ out). split; [rewrite Ho4, Ho3, Ho1; by rewrite app_assoc |].
        rewrite Hperm3, Hperm4. exact Hperm.
      * intros Hb Hslots. apply IH; [auto |].
        apply (Hall (fun i _ => is_Some (slots w !! i))); [constructor | done].
      * intros Hadv. specialize (Hweight Hadv).
        assert (Forall advancing rem) as Hrem
          by (apply (Hall (fun _ k => (1 <= k)%Z)); [constructor | done]).
        specialize (IH Hrem). cbn [length] in Hweight. lia.
    + destruct Hp as [Hw1 Hno]. intros Hb. apply Hno.
      destruct Hw0 as (_ & _ & _ & Hio). auto.
Qed.


Lemma BlockBuffer_next_run (b : BlockBuffer) w :
  match BlockBuffer_next b w with
  | (Ok None, w') => same w w' /\ drop (bb_pos b) (dataset w) = []
  | (Ok (Some (block, b')), w') =>
      same w w' /\ drop (bb_pos b) (dataset w) <> [] /\
      block = take (Z.to_nat (bb_num_per_block b)) (drop (bb_pos b) (dataset w)) /\
      bb_pos b' = bb_pos b + Z.to_nat (bb_num_per_block b) /\
      bb_num_per_block b' = bb_num_per_block b
  | (Raise e, w') => io_budget w <> None
  | (Diverge, _) => False
  end.
Proof.
  unfold BlockBuffer_next, bind, io, read_world.
  destruct (io_budget w) as [[| k] |] eqn:Hb; cbn; [done | |];
    (destruct (drop (bb_pos b) (dataset w)) as [| r rest] eqn:Hd; cbn).
  all: unfold same; cbn; rewrite ?Hd; repeat split; auto; congruence.
Qed.

Lemma write_block_run (scope : BlockScope) (i : nat) (block : list sample) w :
  match write_block scope i block w with
  | (Ok _, w') =>
      dataset w' = dataset w /\ output w' = output w /\
      (io_budget w = None -> io_budget w' = None) /\
      exists m, scratch w = Some m /\ scratch w' = Some (<[i := block]> m)
  | (Raise e, w') => io_budget w = None -> scratch w = None
  | (Diverge, _) => False
  end.
Proof.
  unfold write_block, bind, io, read_world, set_scratch, log, raise.
  destruct (io_budget w) as [[| k] |] eqn:Hb; cbn; [done | |];
    (destruct (scratch w) as [m |] eqn:Hs; cbn; [| done]).
  all: repeat split; try congruence; by exists m.
Qed.

Lemma get_block_buffer_run (scope : BlockScope) (i : nat) (chunk : Z)
    (shape : Z * Z) w :
  match get_block_buffer scope i chunk shape w with
  | (Ok c, w') =>
      same w w' /\
      c = {| cu_index := i; cu_chunk := chunk; cu_shape := shape; cu_pos := 0 |}
  | (Raise e, w') => io_budget w = None -> slots w !! i = None
  | (Diverge, _) => False
  end.
Proof.
  unfold get_block_buffer, bind, io, read_world, raise, slots.
  destruct (io_budget w) as [[| k] |] eqn:Hb; cbn; [done | |];
    (destruct (scratch w) as [m |] eqn:Hs; cbn;
     [destruct (m !! i) eqn:Hm; cbn |]).
  all: unfold same; cbn; repeat split; auto; congruence.
Qed.

Lemma cursor_rest_insert_ne m (i : nat) (block : list sample) (c : cursor) :
  cu_index c <> i -> cursor_rest (<[i := block]> m) c = cursor_rest m c.
Proof. intros Hne. unfold cursor_rest. by rewrite lookup_insert_ne. Qed.

Lemma pending_insert_lt m (i : nat) (block : list sample) (cs : list cursor) :
  Forall (fun c => cu_index c < i) cs ->
  pending (<[i := block]> m) cs = pending m cs.
Proof.
  induction 1 as [| c cs Hc _ IH]; [done |].
  rewrite !pending_cons, IH, cursor_rest_insert_ne; [done | lia].
Qed.

Lemma weight_insert_lt m (i : nat) (block : list sample) (cs : list cursor) :
  Forall (fun c => cu_index c < i) cs ->
  weight (<[i := block]> m) cs = weight m cs.
Proof.
  induction 1 as [| c cs Hc _ IH]; [done |].
  rewrite !weight_cons, IH, cursor_rest_insert_ne; [done | lia].
Qed.

Lemma has_slot_insert m (i : nat) (block : list sample) (c : cursor) :
  has_slot m c -> has_slot (<[i := block]> m) c.
Proof.
  unfold has_slot. intros Hc. destruct (decide (i = cu_index c)) as [-> |].
  - rewrite lookup_insert_eq. eauto.
  - by rewrite lookup_insert_ne.
Qed.

Lemma phase1_run (fuel : nat) (scope : BlockScope) (num_per_block : Z)
    (num_buffers : Q) (shape : Z * Z) (blocks : BlockBuffer) (i : nat)
    (buffers : list cursor) w :
  Forall (fun c => cu_index c < i) buffers ->
  match phase1 np_random_shuffle fuel scope num_per_block num_buffers shape
          blocks i buffers w with
  | (Ok bs, w') =>
      dataset w' = dataset w /\ output w' = output w /\
      (io_budget w = None -> io_budget w' = None) /\
      pending (slots w') bs ≡ₚ
        pending (slots w) buffers ++ drop (bb_pos blocks) (dataset w) /\
      (Forall (has_slot (slots w)) buffers -> Forall (has_slot (slots w')) bs) /\
      ((1 <= bb_num_per_block blocks)%Z ->
       weight (slots w') bs <=
         weight (slots w) buffers + 2 * length (drop (bb_pos blocks) (dataset w))) /\
      (forall P : Z -> Prop,
         Forall (fun c => P (cu_chunk c)) buffers ->
         (forall chunk, int_floordiv_float num_per_block num_buffers = Ok chunk ->
                        P chunk) ->
         Forall (fun c => P (cu_chunk c)) bs)
  | (Raise e, w') =>
      io_budget w = None -> is_Some (scratch w) ->
      drop (bb_pos blocks) (dataset w) <> [] /\
      int_floordiv_float num_per_block num_buffers = Raise e
  | (Diverge, w') =>
      output w' = output w /\
      ((1 <= bb_num_per_block blocks)%Z ->
       fuel <= length (drop (bb_pos blocks) (dataset w)))
  end.
Proof.
  revert blocks i buffers w.
  induction fuel as [| fuel IH]; intros blocks i buffers w Hlt; cbn [phase1].
  - unfold diverge. split; [done | lia].
  - unfold bind at 1. pose proof (BlockBuffer_next_run blocks w) as Hn.
    destruct (BlockBuffer_next blocks w) as [[[[block blocks'] |] | e |] w1];
      [ | | | done].
    2:{ destruct Hn as [(Hd & Ho & Hs & Hio) Hnil]. unfold ret.
        assert (slots w1 = slots w) as -> by (unfold slots; by rewrite Hs).
        repeat split; auto; [by rewrite Hnil, app_nil_r | lia]. }
    2:{ intros Hb. done. }
    destruct Hn as (Hw1 & Hne & Hblock & Hpos & Hnpb).
    unfold bind at 1.
    destruct (random_shuffle_run block w1) as (block' & w2 & -> & Hperm & Hw2 & _ & _).
    pose proof (same_trans _ _ _ Hw1 Hw2) as (Hd2 & Ho2 & Hs2 & Hio2).
    unfold bind at 1. pose proof (write_block_run scope i block' w2) as Hwb.
    destruct (write_block scope i block' w2) as [[[] | e |] w3]; [ | | done].
    2:{ intros Hb [m Hm]. apply Hio2, Hwb in Hb. congruence. }
    destruct Hwb as (Hd3 & Ho3 & Hio3 & m & Hm2 & Hm3).
    assert (Hm : slots w = m) by (unfold slots; rewrite <- Hs2, Hm2; done).
    unfold bind at 1, lift at 1.
    destruct (int_floordiv_float num_per_block num_buffers) as [chunk | e |] eqn:Hdiv.
    2:{ intros _ _. split; [| done]. done. }
    2:{ unfold int_floordiv_float in Hdiv. by destruct (Qeq_bool num_buffers 0). }
    unfold bind at 1.
    pose proof (get_block_buffer_run scope i chunk shape w3) as Hg.
    destruct (get_block_buffer scope i chunk shape w3) as [[buffer | e |] w4];
      [ | | done].
    2:{ intros Hb _. apply Hio2, Hio3, Hg in Hb. unfold slots in Hb.
        rewrite Hm3 in Hb. cbn in Hb. by rewrite lookup_insert_eq in Hb. }
    destruct Hg as [(Hd4 & Ho4 & Hs4 & Hio4) ->].
    assert (Hsl4 : slots w4 = <[i := block']> (slots w))
      by (unfold slots at 1; rewrite Hs4, Hm3, Hm; done).
    set (buffer := {| cu_index := i; cu_chunk := chunk; cu_shape := shape; cu_pos := 0 |}).
    assert (Hlt' : Forall (fun c => cu_index c < S i) (buffers ++ [buffer])).
    { apply Forall_app. split.
      - eapply Forall_impl; [exact Hlt |]. cbn. lia.
      - constructor; [cbn; lia | constructor]. }
    specialize (IH blocks' (S i) (buffers ++ [buffer]) w4 Hlt').
    assert (Hrest : cursor_rest (slots w4) buffer = block').
    { rewrite Hsl4. unfold cursor_rest. cbn. by rewrite lookup_insert_eq. }
    destruct (phase1 _ fuel scope num_per_block num_buffers shape blocks' (S i)
                (buffers ++ [buffer]) w4) as [[bs | e |] w5].
    + destruct IH as (Hd5 & Ho5 & Hio5 & Hperm5 & Hslots5 & Hweight5 & Hchunks5).
      split; [congruence |]. split; [congruence |]. split; [auto |].
      split; [| split; [| split]].
      * rewrite Hperm5, pending_app, pending_cons, Hrest.
        change (pending (slots w4) []) with (@nil sample). rewrite app_nil_r.
        rewrite Hsl4, pending_insert_lt by done.
        rewrite Hperm, Hblock, Hpos, Hd4, Hd3, Hd2.
        rewrite <- drop_drop, <- app_assoc. by rewrite take_drop.
      * intros Hall. apply Hslots5. rewrite Hsl4. apply Forall_app. split.
        -- eapply Forall_impl; [exact Hall |]. intros c. apply has_slot_insert.
        -- constructor; [| constructor]. unfold has_slot. cbn.
           rewrite lookup_insert_eq. eauto.
      * intros HB. rewrite Hnpb in Hweight5. specialize (Hweight5 HB).
        rewrite weight_app, weight_cons, Hrest in Hweight5.
        change (weight (slots w4) []) with 0 in Hweight5.
        rewrite Hsl4, weight_insert_lt in Hweight5 by done.
        rewrite Hpos, Hd4, Hd3, Hd2, <- drop_drop, length_drop in Hweight5.
        rewrite Hperm, Hblock, length_take in Hweight5.
        destruct (drop (bb_pos blocks) (dataset w)); [done |].
        cbn [length] in *. lia.
      * intros P HP Hdivs. apply Hchunks5; [| done].
        apply Forall_app. split; [done |]. constructor; [| constructor].
        cbn. by apply Hdivs.
    + intros Hb Hsc. split; [done |]. apply IH; [auto |].
      rewrite Hs4, Hm3. eauto.
    + destruct IH as [Ho5 IH]. split; [congruence |].
      intros HB. rewrite Hnpb in IH. specialize (IH HB).
      rewrite Hpos, Hd4, Hd3, Hd2 in IH. rewrite <- drop_drop in IH.
      rewrite length_drop in IH.
      destruct (drop (bb_pos blocks) (dataset w)); [done |]. cbn [length] in *. lia.
Qed.


Lemma external_shuffle_body_run (fuel : nat) (dtype : string)
    (num_features num_per_block : Z) (train_path : string) (num_buffers : Q)
    (scope : BlockScope) w :
  match external_shuffle_body np_random_shuffle fuel dtype num_features
          num_per_block train_path num_buffers scope w with
  | (Ok _, w') =>
      dataset w' = dataset w /\
      exists out, output w' = output w ++ out /\ out ≡ₚ dataset w
  | (Raise e, w') =>
      io_budget w = None -> is_Some (scratch w) ->
      dataset w <> [] /\
      int_floordiv_float num_per_block num_buffers = Raise e
  | (Diverge, w') =>
      (1 <= num_per_block)%Z ->
      (forall chunk, int_floordiv_float num_per_block num_buffers = Ok chunk ->
                     (1 <= chunk)%Z) ->
      fuel <= 2 * length (dataset w)
  end.
Proof.
  unfold external_shuffle_body, BlockWriter_new, BlockBuffer_new.
  unfold bind at 1. unfold bind at 1. cbn [log ret].
  unfold bind at 1. unfold bind at 1. cbn [log ret].
  cbn [dataset output scratch gen io_budget trace].
  set (w0 := {| dataset := dataset w; output := output w; scratch := scratch w;
                gen := gen w; io_budget := io_budget w;
                trace := EBufferNew dtype num_per_block train_path
                           (num_per_block, (num_features + 1)%Z)
                         :: EWriterNew dtype num_per_block train_path :: trace w |}).
  set (writer := {| bw_dtype := dtype; bw_num_per_block := num_per_block;
                    bw_path := train_path |}).
  set (blocks := {| bb_dtype := dtype; bb_num_per_block := num_per_block;
                    bb_path := train_path;
                    bb_shape := (num_per_block, (num_features + 1)%Z);
                    bb_pos := 0 |}).
  unfold bind.
  pose proof (phase1_run fuel scope num_per_block num_buffers
                (num_per_block, (num_features + 1)%Z) blocks 0 [] w0
                (Forall_nil_2 _)) as H1.
  change (slots w0) with (slots w) in H1.
  change (pending (slots w) []) with (@nil sample) in H1.
  change (weight (slots w) []) with 0 in H1.
  cbn [bb_pos blocks bb_num_per_block dataset output io_budget scratch w0 app] in H1.
  rewrite !drop_0 in H1.
  destruct (phase1 _ fuel scope num_per_block num_buffers _ blocks 0 [] w0)
    as [[bs | e |] w1]; [ | done | ].
  - destruct H1 as (Hd1 & Ho1 & Hio1 & Hperm1 & Hslots1 & Hweight1 & Hchunks1).
    pose proof (phase2_run fuel writer bs w1) as H2.
    destruct (phase2 _ fuel writer bs w1) as [[[] | e |] w2].
    + destruct H2 as (Hd2 & _ & _ & out & Ho2 & Hperm2).
      split; [congruence |]. exists out. split; [congruence |].
      by rewrite Hperm2, Hperm1.
    + intros Hb _. exfalso. apply H2; [auto |]. apply Hslots1. constructor.
    + intros HB Hchunk.
      assert (Forall advancing bs) as Hadv.
      { apply (Hchunks1 (fun k => (1 <= k)%Z)); [constructor | done]. }
      specialize (H2 Hadv). specialize (Hweight1 HB). lia.
  - intros HB _. destruct H1 as [_ H1]. specialize (H1 HB). lia.
Qed.

Lemma inject_Z_nonzero (z : Z) : z <> 0%Z -> ~ (inject_Z z == 0)%Q.
Proof. intros Hz E. apply Hz. unfold Qeq in E. cbn in E. lia. Qed.

(** The chunk size of line 86 in exact arithmetic: [B // (n / B)] is the
    integer quotient of [B * B] by [n]. *)
Lemma chunk_value (n B : Z) :
  (0 < B)%Z -> (0 < n)%Z ->
  exists nb,
    int_truediv n B = Ok nb /\
    int_floordiv_float B nb = Ok (B * B / n)%Z.
Proof.
  intros HB Hn. exists (inject_Z n / inject_Z B)%Q.
  pose proof (inject_Z_nonzero B ltac:(lia)) as HB0.
  pose proof (inject_Z_nonzero n ltac:(lia)) as Hn0.
  unfold int_truediv, int_floordiv_float.
  destruct (Z.eqb_spec B 0) as [-> | _]; [lia |]. split; [done |].
  destruct (Qeq_bool (inject_Z n / inject_Z B) 0) eqn:E.
  - apply Qeq_bool_eq in E. exfalso. apply Hn0.
    rewrite <- (Qdiv_mult_l (inject_Z n) (inject_Z B)) by done.
    unfold Qdiv at 1. rewrite <- Qmult_assoc, (Qmult_comm (inject_Z B)), Qmult_assoc.
    fold (Qdiv (inject_Z n) (inject_Z B)). rewrite E. apply Qmult_0_l.
  - f_equal. rewrite Zdiv_Qdiv, inject_Z_mult. apply Qfloor_comp.
    field. by split.
Qed.

Lemma truediv_zero (n B : Z) :
  B <> 0%Z -> (inject_Z n / inject_Z B == 0)%Q -> n = 0%Z.
Proof.
  intros HB E. destruct (decide (n = 0%Z)) as [| Hn]; [done |].
  exfalso. apply (inject_Z_nonzero n Hn).
  rewrite <- (Qdiv_mult_l (inject_Z n) (inject_Z B)) by by apply inject_Z_nonzero.
  unfold Qdiv at 1. rewrite <- Qmult_assoc, (Qmult_comm (inject_Z B)), Qmult_assoc.
  fold (Qdiv (inject_Z n) (inject_Z B)). rewrite E. apply Qmult_0_l.
Qed.

Lemma floordiv_raise (n B : Z) (e : exn) :
  B <> 0%Z ->
  int_floordiv_float B (inject_Z n / inject_Z B) = Raise e ->
  e = ZeroDivisionError /\ n = 0%Z.
Proof.
  intros HB. unfold int_floordiv_float.
  destruct (Qeq_bool (inject_Z n / inject_Z B) 0) eqn:E; [| done].
  intros [= <-]. split; [done |]. apply Qeq_bool_eq in E.
  by apply (truediv_zero n B).
Qed.

Lemma floordiv_chunk (n B chunk : Z) :
  (0 < B)%Z -> (0 <= n)%Z -> (n <= B * B)%Z ->
  int_floordiv_float B (inject_Z n / inject_Z B) = Ok chunk ->
  (1 <= chunk)%Z.
Proof.
  intros HB Hn Hle Hdiv. destruct (decide (n = 0%Z)) as [-> | Hn0].
  - unfold int_floordiv_float in Hdiv.
    assert (Qeq_bool (inject_Z 0 / inject_Z B) 0 = true) as E.
    { apply Qeq_eq_bool. unfold Qdiv. apply Qmult_0_l. }
    by rewrite E in Hdiv.
  - destruct (chunk_value n B) as (nb & Hnb & Hchunk); [lia | lia |].
    unfold int_truediv in Hnb. destruct (Z.eqb_spec B 0); [lia |].
    injection Hnb as <-. rewrite Hchunk in Hdiv. injection Hdiv as <-.
    apply Z.div_le_lower_bound; lia.
Qed.

(** The world on entry to the [with] body. *)
Lemma scope_enter_run (dtype tag : string) (num_per_block : Z) w :
  exists w1,
    scope_enter dtype tag num_per_block w =
      (Ok {| bs_dtype := dtype; bs_tag := tag; bs_num_per_block := num_per_block |},
       w1) /\
    dataset w1 = dataset w /\ output w1 = output w /\ scratch w1 = Some ∅ /\
    io_budget w1 = io_budget w /\
    trace w1 = EScopeEnter dtype tag num_per_block :: trace w.
Proof. eexists. split; [reflexivity |]. by repeat split. Qed.

Lemma scope_exit_run (scope : BlockScope) w :
  dataset (scope_exit scope w).2 = dataset w /\
  output (scope_exit scope w).2 = output w /\
  scratch (scope_exit scope w).2 = None /\
  trace (scope_exit scope w).2 = EScopeExit :: trace w.
Proof. by repeat split. Qed.

Lemma external_shuffle_run (fuel : nat) (dtype : string)
    (n num_features num_per_block : Z) (train_path : string) w :
  match external_shuffle np_random_shuffle fuel dtype n num_features
          num_per_block train_path w with
  | (Ok _, w') =>
      dataset w' = dataset w /\ scratch w' = None /\
      exists out, output w' = output w ++ out /\ out ≡ₚ dataset w
  | (Raise e, w') =>
      io_budget w = None ->
      e = ZeroDivisionError /\
      (num_per_block = 0%Z \/ (n = 0%Z /\ dataset w <> []))
  | (Diverge, w') =>
      (0 < num_per_block)%Z -> (0 <= n)%Z ->
      (n <= num_per_block * num_per_block)%Z ->
      fuel <= 2 * length (dataset w)
  end.
Proof.
  unfold external_shuffle, bind at 1, lift, int_truediv.
  destruct (Z.eqb_spec num_per_block 0) as [-> | HB]; [by auto |].
  unfold with_BlockScope.
  destruct (scope_enter_run "float64" "samplesort" num_per_block w)
    as (w1 & -> & Hd1 & Ho1 & Hs1 & Hio1 & _).
  pose proof (external_shuffle_body_run fuel dtype num_features num_per_block
                train_path (inject_Z n / inject_Z num_per_block)
                {| bs_dtype := "float64"; bs_tag := "samplesort";
                   bs_num_per_block := num_per_block |} w1) as Hbody.
  destruct (external_shuffle_body _ _ _ _ _ _ _ _ w1) as [[[] | e |] w2].
  - destruct Hbody as (Hd2 & out & Ho2 & Hperm2).
    destruct (scope_exit_run {| bs_dtype := "float64"; bs_tag := "samplesort";
                                bs_num_per_block := num_per_block |} w2)
      as (Hd3 & Ho3 & Hs3 & _).
    split; [congruence |]. split; [done |]. exists out.
    split; [congruence |]. by rewrite Hperm2, Hd1.
  - intros Hio. destruct Hbody as [Hne Hdiv]; [congruence | rewrite Hs1; eauto |].
    apply floordiv_raise in Hdiv as [-> ->]; [| done].
    split; [done |]. right. split; [done | congruence].
  - intros HB' Hn Hle. rewrite <- Hd1. apply Hbody; [lia |].
    intros chunk. by apply floordiv_chunk.
Qed.






(** *** Exact steps in an environment that does not fail *)

Ltac norm :=
  cbn [dataset output scratch gen io_budget trace fst snd log set_scratch
       set_output bb_pos bb_num_per_block bb_dtype bb_path bb_shape cu_index
       cu_chunk cu_pos cu_shape Nat.add].

Lemma bind_ok {A B} (m : M sample rng A) (f : A -> M sample rng B) w a w' :
  m w = (Ok a, w') -> bind m f w = f a w'.
Proof. intros E. unfold bind. by rewrite E. Qed.

Lemma BlockBuffer_next_block (b : BlockBuffer) w (y : sample) (r : list sample) :
  io_budget w = None -> drop (bb_pos b) (dataset w) = y :: r ->
  BlockBuffer_next b w =
  (Ok (Some (take (Z.to_nat (bb_num_per_block b)) (y :: r),
             {| bb_dtype := bb_dtype b; bb_num_per_block := bb_num_per_block b;
                bb_path := bb_path b; bb_shape := bb_shape b;
                bb_pos := bb_pos b + Z.to_nat (bb_num_per_block b) |})),
   (log (EReadBlock
           (Some (length (take (Z.to_nat (bb_num_per_block b)) (y :: r))))) w).2).
Proof.
  intros Hio Hd. unfold BlockBuffer_next, bind, io, read_world.
  rewrite Hio. cbn. rewrite Hd. by destruct w.
Qed.

Lemma BlockBuffer_next_stop (b : BlockBuffer) w :
  io_budget w = None -> drop (bb_pos b) (dataset w) = [] ->
  BlockBuffer_next b w = (Ok None, (log (EReadBlock None) w).2).
Proof.
  intros Hio Hd. unfold BlockBuffer_next, bind, io, read_world.
  rewrite Hio. cbn. rewrite Hd. by destruct w.
Qed.

Lemma write_block_ok (scope : BlockScope) (i : nat) (block : list sample) w m :
  io_budget w = None -> scratch w = Some m ->
  write_block scope i block w =
  (Ok (),
   (log (EWriteSlot i (length block))
      (set_scratch (Some (<[i := block]> m)) w).2).2).
Proof.
  intros Hio Hs. unfold write_block, bind, io, read_world.
  rewrite Hio. cbn. by rewrite Hs.
Qed.

Lemma get_block_buffer_ok (scope : BlockScope) (i : nat) (chunk : Z)
    (shape : Z * Z) w m (rows : list sample) :
  io_budget w = None -> scratch w = Some m -> m !! i = Some rows ->
  get_block_buffer scope i chunk shape w =
  (Ok {| cu_index := i; cu_chunk := chunk; cu_shape := shape; cu_pos := 0 |},
   (log (ECursorNew i chunk) w).2).
Proof.
  intros Hio Hs Hm. unfold get_block_buffer, bind, io, read_world.
  rewrite Hio. cbn. rewrite Hs, Hm. unfold ret. by rewrite Hs.
Qed.

Lemma cursor_next_chunk (c : cursor) w m (rows : list sample) (y : sample)
    (r : list sample) :
  io_budget w = None -> scratch w = Some m -> m !! cu_index c = Some rows ->
  drop (cu_pos c) rows = y :: r ->
  cursor_next c w =
  (Ok (Some (take (Z.to_nat (cu_chunk c)) (y :: r),
             {| cu_index := cu_index c; cu_chunk := cu_chunk c;
                cu_shape := cu_shape c;
                cu_pos := cu_pos c + Z.to_nat (cu_chunk c) |})),
   (log (ECursorNext (cu_index c)
           (Some (length (take (Z.to_nat (cu_chunk c)) (y :: r))))) w).2).
Proof.
  intros Hio Hs Hm Hd. unfold cursor_next, bind, io, read_world.
  rewrite Hio. cbn. rewrite Hs, Hm, Hd. unfold ret, bind, log. cbn. by rewrite ?Hs.
Qed.

Lemma cursor_next_stop (c : cursor) w m (rows : list sample) :
  io_budget w = None -> scratch w = Some m -> m !! cu_index c = Some rows ->
  drop (cu_pos c) rows = [] ->
  cursor_next c w = (Ok None, (log (ECursorNext (cu_index c) None) w).2).
Proof.
  intros Hio Hs Hm Hd. unfold cursor_next, bind, io, read_world.
  rewrite Hio. cbn. rewrite Hs, Hm, Hd. unfold ret, bind, log. cbn. by rewrite ?Hs.
Qed.

Lemma BlockWriter_write_ok (wr : BlockWriter) (block : list sample) w :
  io_budget w = None ->
  BlockWriter_write wr block w =
  (Ok (),
   (log (EWrite (length block)) (set_output (output w ++ block) w).2).2).
Proof.
  intros Hio. unfold BlockWriter_write, bind, io, read_world.
  rewrite Hio. by cbn.
Qed.


Lemma random_shuffle_eq (block : list sample) w :
  random_shuffle np_random_shuffle block w =
  (Ok (np_random_shuffle (gen w) block).1,
   {| dataset := dataset w; output := output w; scratch := scratch w;
      gen := (np_random_shuffle (gen w) block).2; io_budget := io_budget w;
      trace := trace w |}).
Proof.
  unfold random_shuffle. by destruct (np_random_shuffle (gen w) block).
Qed.

(** A run over a single block ([n = num_per_block]), event by event. *)
Lemma single_block_run (fuel : nat) (dtype : string) (num_features : Z)
    (train_path : string) w :
  io_budget w = None -> dataset w <> [] ->
  let n := Z.of_nat (length (dataset w)) in
  let s1 := np_random_shuffle (gen w) (dataset w) in
  let s2 := np_random_shuffle s1.2 s1.1 in
  external_shuffle np_random_shuffle (S (S fuel)) dtype n num_features n
    train_path w =
  (Ok (),
   {| dataset := dataset w; output := output w ++ s2.1; scratch := None;
      gen := s2.2; io_budget := None;
      trace := [EScopeExit; ECursorNext 0 None; ERound 1; EWrite (length s2.1);
                ECursorNext 0 (Some (length s1.1)); ERound 1; EReadBlock None;
                ECursorNew 0 n; EWriteSlot 0 (length s1.1);
                EReadBlock (Some (length (dataset w)));
                EBufferNew dtype n train_path (n, (num_features + 1)%Z);
                EWriterNew dtype n train_path;
                EScopeEnter "float64" "samplesort" n] ++ trace w |}).
Proof.
  intros Hio Hne n s1 s2.
  assert (Hn : (0 < n)%Z) by (subst n; destruct (dataset w); [done | cbn; lia]).
  destruct (chunk_value n n Hn Hn) as (nb & Hnb & Hchunk).
  rewrite Z.div_mul in Hchunk by lia.
  assert (Htake : take (Z.to_nat n) (dataset w) = dataset w)
    by (apply take_ge; lia).
  assert (Hdrop : drop (Z.to_nat n) (dataset w) = [])
    by (apply drop_ge; lia).
  pose proof (np_random_shuffle_perm (gen w) (dataset w)) as Hp1.
  fold s1 in Hp1.
  assert (Hs1 : s1.1 <> []).
  { intros E. rewrite E in Hp1. by apply Permutation_nil in Hp1. }
  assert (Hlen1 : length s1.1 = Z.to_nat n)
    by (rewrite Hp1; subst n; lia).
  assert (Htake1 : take (Z.to_nat n) s1.1 = s1.1) by (apply take_ge; lia).
  assert (Hdrop1 : drop (Z.to_nat n) s1.1 = []) by (apply drop_ge; lia).
  clearbody n.
  destruct (dataset w) as [| a l] eqn:Hds; [done |].
  destruct s1.1 as [| a1 l1] eqn:Hb1; [done |].
  unfold external_shuffle, bind at 1, lift. rewrite Hnb.
  unfold with_BlockScope.
  change (scope_enter "float64" "samplesort" n w) with
    (Ok {| bs_dtype := "float64"; bs_tag := "samplesort"; bs_num_per_block := n |},
     (set_scratch (Some ∅) (log (EScopeEnter "float64" "samplesort" n) w).2).2).
  cbv beta iota.
  set (scope := {| bs_dtype := "float64"; bs_tag := "samplesort";
                   bs_num_per_block := n |}).
  unfold external_shuffle_body.
  erewrite bind_ok by reflexivity.
  erewrite bind_ok by reflexivity.
  cbn [phase1]. norm.
  erewrite bind_ok.
  2:{ erewrite bind_ok
        by (apply BlockBuffer_next_block; [exact Hio | cbn; exact Hds]).
      cbv beta iota. norm. rewrite Htake.
      erewrite bind_ok by apply random_shuffle_eq. norm.
      fold s1. rewrite Hb1.
      erewrite bind_ok
        by (eapply write_block_ok; [exact Hio | reflexivity]). norm.
      unfold lift at 1. rewrite Hchunk. unfold bind at 1.
      erewrite bind_ok
        by (eapply get_block_buffer_ok;
            [exact Hio | reflexivity | apply lookup_insert_eq]). norm.
      erewrite bind_ok
        by (apply BlockBuffer_next_stop; [exact Hio | norm; by rewrite Hds]).
      reflexivity. }
  norm. cbn [app phase2 length].
  erewrite bind_ok by reflexivity. norm. cbn [pull].
  erewrite bind_ok.
  2:{ erewrite bind_ok.
      2:{ eapply cursor_next_chunk;
            [exact Hio | reflexivity | apply lookup_insert_eq | reflexivity]. }
      cbv beta iota. norm. rewrite Htake1. reflexivity. }
  cbv beta iota. norm.
  erewrite bind_ok.
  2:{ erewrite bind_ok by apply random_shuffle_eq. norm.
      change (np_random_shuffle s1.2 (a1 :: l1)) with s2.
      apply BlockWriter_write_ok. exact Hio. }
  norm. cbn [phase2 app length].
  erewrite bind_ok by reflexivity. norm. cbn [pull].
  erewrite bind_ok.
  2:{ erewrite bind_ok.
      2:{ eapply cursor_next_stop;
            [exact Hio | reflexivity | apply lookup_insert_eq | norm; exact Hdrop1]. }
      reflexivity. }
  cbv beta iota. norm.
  erewrite bind_ok by reflexivity.
  destruct fuel; cbn [phase2]; unfold ret, scope_exit, bind; norm;
    rewrite Hio, Hds; reflexivity.
Qed.


Lemma new_events_app (t before : list event) :
  new_events before (t ++ before) = rev t.
Proof.
  unfold new_events. rewrite length_app.
  replace (length t + length before - length before) with (length t) by lia.
  by rewrite take_app_length.
Qed.

Lemma single_block_rounds (fuel : nat) (dtype : string) (num_features : Z)
    (train_path : string) w w' :
  io_budget w = None -> dataset w <> [] ->
  external_shuffle np_random_shuffle (S (S fuel)) dtype
    (Z.of_nat (length (dataset w))) num_features
    (Z.of_nat (length (dataset w))) train_path w = (Ok (), w') ->
  rounds (new_events (trace w) (trace w')) = 2.
Proof.
  intros Hio Hne Hrun.
  pose proof (single_block_run fuel dtype num_features train_path w Hio Hne)
    as Hsingle.
  cbv zeta in Hsingle. rewrite Hsingle in Hrun.
  apply (f_equal (fun p => trace p.2)) in Hrun. cbn [snd trace] in Hrun.
  rewrite <- Hrun. by rewrite new_events_app.
Qed.

(** C4, as amended: when [n = num_per_block] and the dataset is not empty,
    the merge loop runs exactly two rounds, each over the one cursor: the
    first pulls the whole slot and emits it in the run's only write, the
    second finds the cursor exhausted and writes nothing.  The output is the
    whole dataset shuffled in memory, a permutation of all [n] samples. *)
Theorem single_block_two_rounds (fuel : nat) (dtype : string)
    (num_features : Z) (train_path : string) w :
  io_budget w = None -> dataset w <> [] ->
  exists w',
    external_shuffle np_random_shuffle (S (S fuel)) dtype
      (Z.of_nat (length (dataset w))) num_features
      (Z.of_nat (length (dataset w))) train_path w = (Ok (), w') /\
    filter is_round (new_events (trace w) (trace w')) = [ERound 1; ERound 1] /\
    rounds (new_events (trace w) (trace w')) = 2 /\
    writes (new_events (trace w) (trace w')) = [EWrite (length (dataset w))] /\
    exists block, output w' = output w ++ block /\ block ≡ₚ dataset w.
Proof.
  intros Hio Hne.
  pose proof (single_block_run fuel dtype num_features train_path w Hio Hne)
    as Hrun.
  cbv zeta in Hrun. eexists. split; [exact Hrun |].
  cbn [trace output]. rewrite new_events_app.
  assert (Hlen : length
                   (np_random_shuffle
                      (np_random_shuffle (gen w) (dataset w)).2
                      (np_random_shuffle (gen w) (dataset w)).1).1
                 = length (dataset w)).
  { by rewrite !np_random_shuffle_perm. }
  repeat split.
  - unfold writes. cbn. by rewrite Hlen.
  - eexists. split; [reflexivity |]. by rewrite !np_random_shuffle_perm.
Qed.

(** *** The scope around the two phases *)

Lemma external_shuffle_body_effects (fuel : nat) (dtype : string)
    (num_features num_per_block : Z) (train_path : string) (num_buffers : Q)
    (scope : BlockScope) w :
  let rw := external_shuffle_body np_random_shuffle fuel dtype num_features
              num_per_block train_path num_buffers scope w in
  tame rw.1 /\
  exists t,
    trace rw.2 =
      t ++ [EBufferNew dtype num_per_block train_path
              (num_per_block, (num_features + 1)%Z);
            EWriterNew dtype num_per_block train_path] ++ trace w /\
    Forall (fun e => step_event e = true) t.
Proof.
  cbv zeta. unfold external_shuffle_body.
  erewrite bind_ok by reflexivity. erewrite bind_ok by reflexivity.
  match goal with
  | |- context [bind ?m ?f ?w0] =>
      destruct (safe_bind m f
                  ltac:(apply safe_phase1)
                  ltac:(intros; apply safe_phase2) w0)
        as [(_ & _ & (t & Ht & Ft) & _) Htame]
  end.
  split; [exact Htame |]. exists t. split; [| exact Ft].
  rewrite Ht. reflexivity.
Qed.

Lemma external_shuffle_nonzero (fuel : nat) (dtype : string)
    (n num_features num_per_block : Z) (train_path : string) w :
  num_per_block <> 0%Z ->
  external_shuffle np_random_shuffle fuel dtype n num_features num_per_block
    train_path w =
  with_BlockScope "float64" "samplesort" num_per_block
    (external_shuffle_body np_random_shuffle fuel dtype num_features
       num_per_block train_path (inject_Z n / inject_Z num_per_block)) w.
Proof.
  intros HB. unfold external_shuffle, bind at 1, lift, int_truediv.
  by destruct (Z.eqb_spec num_per_block 0).
Qed.

Lemma external_shuffle_effects (fuel : nat) (dtype : string)
    (n num_features num_per_block : Z) (train_path : string) w :
  let rw := external_shuffle np_random_shuffle fuel dtype n num_features
              num_per_block train_path w in
  tame rw.1 /\
  (num_per_block = 0%Z -> rw = (Raise ZeroDivisionError, w)) /\
  (num_per_block <> 0%Z ->
   exists t,
     trace rw.2 =
       t ++ [EBufferNew dtype num_per_block train_path
               (num_per_block, (num_features + 1)%Z);
             EWriterNew dtype num_per_block train_path;
             EScopeEnter "float64" "samplesort" num_per_block] ++ trace w /\
     Forall (fun e => step_event e = true \/ e = EScopeExit) t).
Proof.
  cbv zeta. destruct (decide (num_per_block = 0%Z)) as [-> | HB].
  { split; [done |]. split; [done | by intros []]. }
  rewrite (external_shuffle_nonzero _ _ _ _ _ _ _ HB).
  unfold with_BlockScope.
  destruct (scope_enter_run "float64" "samplesort" num_per_block w)
    as (w1 & -> & _ & _ & _ & _ & Ht1).
  destruct (external_shuffle_body_effects fuel dtype num_features num_per_block
              train_path (inject_Z n / inject_Z num_per_block)
              {| bs_dtype := "float64"; bs_tag := "samplesort";
                 bs_num_per_block := num_per_block |} w1)
    as (Htame & t & Ht & Ft).
  destruct (external_shuffle_body _ _ _ _ _ _ _ _ w1) as [[[] | e |] w2];
    cbn [fst snd] in *.
  all: split; [exact Htame |]; split; [done |]; intros _.
  3:{ exists t. split.
      - cbn [fst snd]. rewrite Ht, Ht1. reflexivity.
      - eapply Forall_impl; [exact Ft |]. by left. }
  all: exists (EScopeExit :: t); split;
    [ cbn [fst snd];
      match goal with
      | |- context [scope_exit ?s ?w0] =>
          destruct (scope_exit_run s w0) as (_ & _ & _ & ->)
      end;
      rewrite Ht, Ht1; reflexivity
    | constructor; [by right |];
      eapply Forall_impl; [exact Ft |]; by left ].
Qed.

(** C9: once a shuffle run has exited, normally or by raising in either
    phase, no scratch slot is left, and the outcome of the run is the
    outcome of the body of the [with] statement: its exception, if any,
    reaches the caller. *)
Theorem external_shuffle_releases_scope (fuel : nat) (dtype : string)
    (n num_features num_per_block : Z) (train_path : string) w r w' :
  scratch w = None ->
  external_shuffle np_random_shuffle fuel dtype n num_features num_per_block
    train_path w = (r, w') ->
  exited r = true ->
  scratch w' = None /\ slots w' = ∅ /\
  forall num_buffers scope w1,
    int_truediv n num_per_block = Ok num_buffers ->
    scope_enter "float64" "samplesort" num_per_block w = (Ok scope, w1) ->
    (external_shuffle_body np_random_shuffle fuel dtype num_features
       num_per_block train_path num_buffers scope w1).1 = r.
Proof.
  intros Hsc Hrun Hexit.
  assert (scratch w' = None /\
          forall num_buffers scope w1,
            int_truediv n num_per_block = Ok num_buffers ->
            scope_enter "float64" "samplesort" num_per_block w = (Ok scope, w1) ->
            (external_shuffle_body np_random_shuffle fuel dtype num_features
               num_per_block train_path num_buffers scope w1).1 = r) as [H1 H2].
  { revert Hrun. unfold external_shuffle, bind at 1, lift.
    destruct (int_truediv n num_per_block) as [nb | e |] eqn:Hdiv.
    - unfold with_BlockScope.
      destruct (scope_enter "float64" "samplesort" num_per_block w)
        as [[scope | e |] w1] eqn:Henter; [ | done | done].
      destruct (external_shuffle_body _ _ _ _ _ _ nb scope w1)
        as [[[] | e |] w2] eqn:Hbody; intros [= <- <-]; [ | | done].
      all: split; [done |]; intros nb' scope' w1' [= <-] [= <- <-];
        by rewrite Hbody.
    - intros [= <- <-]. by split.
    - intros [= <- <-]. done. }
  split; [done |]. split; [unfold slots; by rewrite H1 | done].
Qed.

(** C10: whatever element type is configured, the Scratch Scope of a run is
    created with element type ["float64"] (8 bytes per value) and tag
    ["samplesort"], while the Block Writer and the Block Reader are created
    with the configured element type; the run creates no other scope,
    writer or reader.  The one run that creates no scope at all is the one
    that line 76 aborts, with a block size of zero. *)
Theorem external_shuffle_scope_dtype (fuel : nat) (dtype : string)
    (n num_features num_per_block : Z) (train_path : string) w :
  (num_per_block = 0%Z /\
   external_shuffle np_random_shuffle fuel dtype n num_features num_per_block
     train_path w = (Raise ZeroDivisionError, w)) \/
  (exists t,
     trace (external_shuffle np_random_shuffle fuel dtype n num_features
              num_per_block train_path w).2 =
       t ++ [EBufferNew dtype num_per_block train_path
               (num_per_block, (num_features + 1)%Z);
             EWriterNew dtype num_per_block train_path;
             EScopeEnter "float64" "samplesort" num_per_block] ++ trace w /\
     Forall (fun e => step_event e = true \/ e = EScopeExit) t /\
     np_itemsize "float64" = Some 8%Z /\ np_itemsize "uint8" = Some 1%Z).
Proof.
  destruct (external_shuffle_effects fuel dtype n num_features num_per_block
              train_path w) as (_ & Hzero & Ht).
  destruct (decide (num_per_block = 0%Z)) as [HB | HB].
  - left. split; [done | by apply Hzero].
  - right. destruct (Ht HB) as (t & Htr & Ft). exists t. by repeat split.
Qed.

(** *** Dispatch *)


(** C5: with algorithm ["external_sort"], [shuffle_train] runs
    [external_sort] and nothing of [external_shuffle]: the stub returns at
    once and leaves the world as it was, with no read, no write and no
    output. *)
Theorem shuffle_train_external_sort (fuel : nat) (dtype : string)
    (n num_features num_per_block : Z) (train_path : string) w :
  shuffle_train np_random_shuffle fuel "external_sort" dtype n num_features
    num_per_block train_path w =
    external_sort dtype n num_per_block num_features train_path w /\
  external_sort dtype n num_per_block num_features train_path w = (Ok (), w) /\
  new_events (trace w)
    (trace (shuffle_train np_random_shuffle fuel "external_sort" dtype n
              num_features num_per_block train_path w).2) = [].
Proof.
  repeat split. change (new_events (trace w) (trace w) = []).
  apply (new_events_app [] (trace w)).
Qed.

(** C6: an algorithm name outside [ALGORITHMS] makes [shuffle_train] fail
    with the assertion error at once, the world untouched; a name in
    [ALGORITHMS] never raises it. *)
Theorem shuffle_train_invalid_algorithm (fuel : nat) (algorithm dtype : string)
    (n num_features num_per_block : Z) (train_path : string) w :
  (algorithm ∉ ALGORITHMS ->
   shuffle_train np_random_shuffle fuel algorithm dtype n num_features
     num_per_block train_path w =
   (Raise (AssertionError "Invalid shuffling algorithm provided."), w)) /\
  (algorithm ∈ ALGORITHMS ->
   forall msg,
     (shuffle_train np_random_shuffle fuel algorithm dtype n num_features
        num_per_block train_path w).1 <> Raise (AssertionError msg)).
Proof.
  unfold shuffle_train. split.
  - intros Hnot. by rewrite bool_decide_eq_false_2.
  - intros Hin msg. rewrite bool_decide_eq_true_2 by done.
    destruct (String.eqb algorithm "external_sort"); [done |].
    destruct (external_shuffle_effects fuel dtype n num_per_block num_features
                train_path w) as (Htame & _).
    intros E. cbv zeta in Htame. by rewrite E in Htame.
Qed.

(** *** Further properties of [external_shuffle] *)


(** X2: with a positive block size and [0 <= n <= B * B], a run exits,
    by returning or by raising, within [2 * len + 1] iterations of each
    loop, whatever the environment does. *)
Theorem external_shuffle_exits (fuel : nat) (dtype : string)
    (n num_features num_per_block : Z) (train_path : string) w :
  (0 < num_per_block)%Z -> (0 <= n)%Z ->
  (n <= num_per_block * num_per_block)%Z ->
  2 * length (dataset w) < fuel ->
  exited (external_shuffle np_random_shuffle fuel dtype n num_features
            num_per_block train_path w).1 = true.
Proof.
  intros HB Hn Hle Hfuel.
  pose proof (external_shuffle_run fuel dtype n num_features num_per_block
                train_path w) as Hrun.
  destruct (external_shuffle _ _ _ _ _ _ _ w) as [[[] | e |] w']; [done | done |].
  specialize (Hrun HB Hn Hle). lia.
Qed.


(** *** What every outcome keeps *)

Lemma keeps_ret {A} (R : relation (world sample rng)) `{!Reflexive R} (a : A) :
  keeps R (ret a).
Proof. intros w. apply reflexivity. Qed.

Lemma keeps_lift {A} (R : relation (world sample rng)) `{!Reflexive R}
    (r : outcome A) :
  keeps R (lift r).
Proof. intros w. apply reflexivity. Qed.

Lemma keeps_bind {A B} (R : relation (world sample rng))
    `{!Transitive R} (m : M sample rng A) (f : A -> M sample rng B) :
  keeps R m -> (forall a, keeps R (f a)) -> keeps R (bind m f).
Proof.
  intros Hm Hf w. unfold bind. specialize (Hm w).
  destruct (m w) as [[a | e |] w1]; cbn [snd] in *; try exact Hm.
  etransitivity; [exact Hm | apply Hf].
Qed.

#[local] Instance untouched_refl : Reflexive (untouched (sample := sample) (rng := rng)).
Proof. by intros w. Qed.

#[local] Instance untouched_trans : Transitive (untouched (sample := sample) (rng := rng)).
Proof. intros w1 w2 w3 [? ?] [? ?]. split; congruence. Qed.












(** *** Edge cases *)

(** X5: over an empty dataset file a run with a block size other than 0
    returns at once, whatever [n] is declared: the reader stops at its first
    call, no block is shuffled, no slot and no output is written, and the
    scope is released. *)
Theorem empty_dataset_run (fuel : nat) (dtype : string)
    (n num_features num_per_block : Z) (train_path : string) w :
  io_budget w = None -> dataset w = [] -> num_per_block <> 0%Z ->
  external_shuffle np_random_shuffle (S fuel) dtype n num_features
    num_per_block train_path w =
  (Ok (),
   {| dataset := []; output := output w; scratch := None; gen := gen w;
      io_budget := None;
      trace := [EScopeExit; EReadBlock None;
                EBufferNew dtype num_per_block train_path
                  (num_per_block, (num_features + 1)%Z);
                EWriterNew dtype num_per_block train_path;
                EScopeEnter "float64" "samplesort" num_per_block] ++ trace w |}).
Proof.
  intros Hio Hds HB.
  rewrite (external_shuffle_nonzero _ _ _ _ _ _ _ HB). unfold with_BlockScope.
  change (scope_enter "float64" "samplesort" num_per_block w) with
    (Ok {| bs_dtype := "float64"; bs_tag := "samplesort";
           bs_num_per_block := num_per_block |},
     (set_scratch (Some ∅)
        (log (EScopeEnter "float64" "samplesort" num_per_block) w).2).2).
  cbv beta iota. unfold external_shuffle_body.
  erewrite bind_ok by reflexivity. erewrite bind_ok by reflexivity.
  cbn [phase1]. norm.
  erewrite bind_ok.
  2:{ erewrite bind_ok
        by (apply BlockBuffer_next_stop; [exact Hio | norm; by rewrite Hds]).
      reflexivity. }
  norm. cbn [phase2]. unfold ret, scope_exit, bind. norm.
  by rewrite Hio, Hds.
Qed.

Lemma floordiv_by_zero_blocks (num_per_block : Z) :
  num_per_block <> 0%Z ->
  int_floordiv_float num_per_block (inject_Z 0 / inject_Z num_per_block) =
    Raise ZeroDivisionError.
Proof.
  intros _. unfold int_floordiv_float.
  assert (Qeq_bool (inject_Z 0 / inject_Z num_per_block) 0 = true) as ->; [| done].
  apply Qeq_eq_bool. unfold Qdiv. apply Qmult_0_l.
Qed.

(** X6: with [n = 0] declared over a dataset file that is not empty, a run
    with a positive block size fails on line 86, in the first pass of the
    Phase 1 loop: the first block has been read, shuffled and written to
    slot 0 when [num_per_block // 0.0] raises ZeroDivisionError.  The scope
    is released and the output file is not written. *)
Theorem zero_samples_declared_run (fuel : nat) (dtype : string)
    (num_features num_per_block : Z) (train_path : string) w :
  io_budget w = None -> dataset w <> [] -> (0 < num_per_block)%Z ->
  let block := take (Z.to_nat num_per_block) (dataset w) in
  let s := np_random_shuffle (gen w) block in
  external_shuffle np_random_shuffle (S fuel) dtype 0 num_features
    num_per_block train_path w =
  (Raise ZeroDivisionError,
   {| dataset := dataset w; output := output w; scratch := None; gen := s.2;
      io_budget := None;
      trace := [EScopeExit; EWriteSlot 0 (length s.1);
                EReadBlock (Some (length block));
                EBufferNew dtype num_per_block train_path
                  (num_per_block, (num_features + 1)%Z);
                EWriterNew dtype num_per_block train_path;
                EScopeEnter "float64" "samplesort" num_per_block] ++ trace w |}).
Proof.
  intros Hio Hne Hpos block s.
  assert (HB : num_per_block <> 0%Z) by lia.
  destruct (dataset w) as [| a l] eqn:Hds; [done |].
  rewrite (external_shuffle_nonzero _ _ _ _ _ _ _ HB). unfold with_BlockScope.
  change (scope_enter "float64" "samplesort" num_per_block w) with
    (Ok {| bs_dtype := "float64"; bs_tag := "samplesort";
           bs_num_per_block := num_per_block |},
     (set_scratch (Some ∅)
        (log (EScopeEnter "float64" "samplesort" num_per_block) w).2).2).
  cbv beta iota.
  set (scope := {| bs_dtype := "float64"; bs_tag := "samplesort";
                   bs_num_per_block := num_per_block |}).
  unfold external_shuffle_body.
  erewrite bind_ok by reflexivity. erewrite bind_ok by reflexivity.
  cbn [phase1]. norm.
  unfold bind at 1.
  erewrite bind_ok
    by (apply BlockBuffer_next_block; [exact Hio | cbn; exact Hds]).
  cbv beta iota. norm. fold block.
  erewrite bind_ok by apply random_shuffle_eq. norm. fold s.
  erewrite bind_ok by (eapply write_block_ok; [exact Hio | reflexivity]). norm.
  unfold lift at 1. rewrite (floordiv_by_zero_blocks _ HB).
  unfold bind at 1, scope_exit, bind. norm.
  by rewrite Hio, Hds.
Qed.

(** *** Bounded buffers in the merge loop *)

#[local] Instance extends_refl (Q : event -> Prop) :
  Reflexive (extends (sample := sample) (rng := rng) Q).
Proof. intros w. exists []. split; [done | constructor]. Qed.

#[local] Instance extends_trans (Q : event -> Prop) :
  Transitive (extends (sample := sample) (rng := rng) Q).
Proof.
  intros w1 w2 w3 (t & Ht & Ft) (t' & Ht' & Ft'). exists (t' ++ t). split.
  - rewrite Ht', Ht. by rewrite app_assoc.
  - by apply Forall_app.
Qed.

Lemma extends_io (Q : event -> Prop) (e : exn) :
  keeps (extends Q) (io (sample := sample) (rng := rng) e).
Proof.
  intros w. unfold io.
  destruct (io_budget w) as [[| k] |]; cbn; exists []; split; done || constructor.
Qed.

Lemma extends_log (Q : event -> Prop) (e : event) :
  Q e -> keeps (extends Q) (log (sample := sample) (rng := rng) e).
Proof. intros He w. exists [e]. split; [done | by constructor]. Qed.

Lemma extends_read_world (Q : event -> Prop) :
  keeps (extends Q) (read_world (sample := sample) (rng := rng)).
Proof. intros w. apply reflexivity. Qed.

Lemma extends_raise {A} (Q : event -> Prop) (e : exn) :
  keeps (extends Q) (raise (sample := sample) (rng := rng) (A := A) e).
Proof. intros w. apply reflexivity. Qed.

Lemma extends_weaken (Q Q' : event -> Prop) w w' :
  (forall e, Q e -> Q' e) -> extends Q w w' -> extends Q' w w'.
Proof.
  intros HQ (t & Ht & Ft). exists t. split; [done |].
  eapply Forall_impl; [exact Ft | exact HQ].
Qed.

Lemma cursor_next_within (k c : nat) (cu : cursor) :
  Z.to_nat (cu_chunk cu) <= c ->
  keeps (extends (within k c)) (cursor_next (sample := sample) (rng := rng) cu).
Proof.
  intros Hc. unfold cursor_next.
  apply keeps_bind; [apply _ | apply extends_io |]. intros _.
  apply keeps_bind; [apply _ | apply extends_read_world |]. intros w0.
  destruct (scratch w0) as [m |]; [| apply extends_raise].
  destruct (m !! cu_index cu) as [rows |]; [| apply extends_raise].
  destruct (drop (cu_pos cu) rows) as [| y r].
  - apply keeps_bind; [apply _ | by apply extends_log |]. intros _.
    apply keeps_ret; apply _.
  - apply keeps_bind; [apply _ | |]; [| intros _; apply keeps_ret; apply _].
    apply extends_log. cbn [within]. rewrite length_take. lia.
Qed.

Lemma pull_within (k c : nat) (buffers : list cursor)
    (cb : option (list sample)) (rem : list cursor) :
  Forall (fun cu => Z.to_nat (cu_chunk cu) <= c) buffers ->
  keeps (extends (within k c)) (pull (rng := rng) buffers cb rem).
Proof.
  intros Hall. revert cb rem.
  induction Hall as [| cu rest Hcu _ IH]; intros cb rem; cbn [pull].
  - apply keeps_ret; apply _.
  - apply keeps_bind; [apply _ | by apply cursor_next_within |].
    intros [[block buffer'] |]; apply IH.
Qed.

Lemma pull_bound (c : nat) (buffers : list cursor) (cb : option (list sample))
    (rem : list cursor) w :
  Forall (fun cu => Z.to_nat (cu_chunk cu) <= c) buffers ->
  match pull buffers cb rem w with
  | (Ok (cb', rem'), _) =>
      length (flat cb') <= length (flat cb) + length buffers * c /\
      length rem' <= length rem + length buffers /\
      (Forall (fun cu => Z.to_nat (cu_chunk cu) <= c) rem ->
       Forall (fun cu => Z.to_nat (cu_chunk cu) <= c) rem')
  | _ => True
  end.
Proof.
  intros Hall. revert cb rem w.
  induction Hall as [| cu rest Hcu _ IH]; intros cb rem w; cbn [pull].
  - unfold ret. cbn [length]. split; [lia |]. split; [lia | done].
  - unfold bind. pose proof (cursor_next_run cu w) as Hn.
    destruct (cursor_next cu w) as [[[[block cu'] |] | e |] w1]; [ | | done | done].
    + destruct Hn as (_ & _ & Hblock & _ & _ & Hchunk).
      specialize (IH (Some match cb with Some cb0 => cb0 ++ block | None => block end)
                    (rem ++ [cu']) w1).
      destruct (pull rest _ _ w1) as [[[cb' rem'] | e |] w2]; [| done | done].
      destruct IH as (Hlen & Hrem & Hall').
      assert (length block <= c) by (rewrite Hblock, length_take; lia).
      rewrite length_app in Hrem. cbn [length] in *.
      split; [| split].
      * destruct cb; unfold flat, default, id in *; cbn [from_option] in *;
          unfold id in *; rewrite ?length_app in Hlen; cbn [length] in *; lia.
      * lia.
      * intros Hr. apply Hall'. apply Forall_app. split; [done |].
        constructor; [by rewrite Hchunk | constructor].
    + specialize (IH cb rem w1).
      destruct (pull rest _ _ w1) as [[[cb' rem'] | e |] w2]; [| done | done].
      destruct IH as (Hlen & Hrem & Hall'). cbn [length]. split; [lia |].
      split; [lia | done].
Qed.

Lemma emit_within (k c : nat) (writer : BlockWriter)
    (cb : option (list sample)) w :
  length (flat cb) <= k * c ->
  exists r w',
    (match cb with
     | Some cb0 =>
         cb' <- random_shuffle np_random_shuffle cb0 ;;
         BlockWriter_write writer cb'
     | None => ret ()
     end) w = (r, w') /\
    extends (within k c) w w'.
Proof.
  intros Hlen. destruct cb as [cb0 |].
  - unfold bind. rewrite random_shuffle_eq.
    pose proof (np_random_shuffle_perm (gen w) cb0) as Hp.
    unfold BlockWriter_write, bind, io, read_world, set_output, log.
    cbn [io_budget].
    destruct (io_budget w) as [[| j] |]; cbn; do 2 eexists;
      (split; [reflexivity |]).
    + exists []. split; [done | constructor].
    + eexists [_]. split; [reflexivity |]. constructor; [| constructor].
      cbn [within]. rewrite Hp. exact Hlen.
    + eexists [_]. split; [reflexivity |]. constructor; [| constructor].
      cbn [within]. rewrite Hp. exact Hlen.
  - exists (Ok ()), w. split; [done | apply reflexivity].
Qed.

Lemma within_mono (k k' c : nat) (e : event) :
  k <= k' -> within k c e -> within k' c e.
Proof.
  intros Hk. destruct e as [| | | | | | | i [r |] | r | j]; cbn [within];
    try done; [nia | lia].
Qed.

Lemma phase2_within_run (c : nat) (fuel : nat) (writer : BlockWriter)
    (buffers : list cursor) w r w' :
  Forall (fun cu => Z.to_nat (cu_chunk cu) <= c) buffers ->
  phase2 np_random_shuffle fuel writer buffers w = (r, w') ->
  extends (within (length buffers) c) w w'.
Proof.
  revert buffers w r w'.
  induction fuel as [| fuel IH]; intros [| b bs] w r w' Hall; cbn [phase2];
    try (intros [= <- <-]; apply reflexivity).
  unfold bind at 1. cbn [log].
  set (k := length (b :: bs)).
  set (w0 := {| dataset := dataset w; output := output w; scratch := scratch w;
                gen := gen w; io_budget := io_budget w;
                trace := ERound k :: trace w |}).
  assert (Hw0 : extends (within k c) w w0).
  { exists [ERound k]. split; [done |]. constructor; [| constructor].
    cbn [within]. lia. }
  unfold bind at 1.
  pose proof (pull_within k c (b :: bs) None [] Hall w0) as Hpw.
  pose proof (pull_bound c (b :: bs) None [] w0 Hall) as Hpb.
  destruct (pull (b :: bs) None [] w0) as [[[cb rem] | e |] w1];
    cbn [snd] in Hpw.
  2,3: intros [= <- <-]; by etransitivity.
  destruct Hpb as (Hlen & Hrem & Hall').
  change (length (flat None)) with 0 in Hlen.
  change (length (@nil cursor)) with 0 in Hrem.
  change (length (b :: bs)) with k in Hlen, Hrem.
  unfold bind at 1.
  destruct (emit_within k c writer cb w1) as (r1 & w3 & -> & Hemit); [lia |].
  assert (Hw3 : extends (within k c) w w3)
    by (etransitivity; [exact Hw0 |]; by etransitivity).
  destruct r1 as [[] | e |]; [| by intros [= <- <-] ..].
  intros Hrun. etransitivity; [exact Hw3 |].
  eapply extends_weaken; [| eapply (IH rem); [by apply Hall' | exact Hrun]].
  intros e. apply within_mono. lia.
Qed.

(** X7: in a merge over cursors of chunk size at most [c], whatever the
    outcome, no round starts with more cursors than the loop was given, no
    cursor yields more than [c] rows at once, and no block written to the
    output file holds more than [c] rows per cursor. *)
Theorem phase2_within (c : nat) (fuel : nat) (writer : BlockWriter)
    (buffers : list cursor) w :
  Forall (fun cu => Z.to_nat (cu_chunk cu) <= c) buffers ->
  extends (within (length buffers) c) w
    (phase2 np_random_shuffle fuel writer buffers w).2.
Proof.
  intros Hall.
  destruct (phase2 np_random_shuffle fuel writer buffers w) as [r w'] eqn:Hrun.
  by apply (phase2_within_run c fuel writer buffers w r w').
Qed.

(** *** The layout Phase 1 leaves *)

Lemma phase1_layout (fuel : nat) (scope : BlockScope) (num_per_block : Z)
    (num_buffers : Q) (shape : Z * Z) (blocks : BlockBuffer) (i : nat)
    (buffers : list cursor) w bs w' :
  Forall (fun c => cu_index c < i) buffers ->
  (1 <= bb_num_per_block blocks)%Z ->
  phase1 np_random_shuffle fuel scope num_per_block num_buffers shape blocks i
    buffers w = (Ok bs, w') ->
  let B := Z.to_nat (bb_num_per_block blocks) in
  let rest := drop (bb_pos blocks) (dataset w) in
  (forall idx, idx < i -> slots w' !! idx = slots w !! idx) /\
  (forall j, j * B < length rest ->
     exists block, slots w' !! (i + j) = Some block /\
                   block ≡ₚ take B (drop (j * B) rest)) /\
  exists count : nat,
    length rest <= count * B /\ count * B < length rest + B /\
    (count = 0 /\ bs = buffers \/
     exists chunk,
       int_floordiv_float num_per_block num_buffers = Ok chunk /\
       bs = buffers ++ map (cursor_at chunk shape) (seq i count)).
Proof.
  revert blocks i buffers w bs w'.
  induction fuel as [| fuel IH]; intros blocks i buffers w bs w' Hlt HB;
    cbn [phase1]; [done |].
  unfold bind at 1. pose proof (BlockBuffer_next_run blocks w) as Hn.
  destruct (BlockBuffer_next blocks w) as [[[[block blocks'] |] | e |] w1];
    [ | | done | done].
  2:{ destruct Hn as [(Hd & Ho & Hs & Hio) Hnil]. intros [= <- <-].
      cbv zeta. rewrite Hnil. cbn [length].
      assert (slots w1 = slots w) as -> by (unfold slots; by rewrite Hs).
      split; [done |]. split; [intros j; lia |].
      exists 0. split; [lia |]. split; [lia |]. by left. }
  destruct Hn as (Hw1 & Hne & Hblock & Hpos & Hnpb).
  unfold bind at 1.
  destruct (random_shuffle_run block w1) as (block' & w2 & -> & Hperm & Hw2 & _ & _).
  pose proof (same_trans _ _ _ Hw1 Hw2) as (Hd2 & Ho2 & Hs2 & Hio2).
  unfold bind at 1. pose proof (write_block_run scope i block' w2) as Hwb.
  destruct (write_block scope i block' w2) as [[[] | e |] w3]; [ | done | done].
  destruct Hwb as (Hd3 & Ho3 & Hio3 & m0 & Hm2 & Hm3).
  assert (Hm : slots w = m0) by (unfold slots; rewrite <- Hs2, Hm2; done).
  unfold bind at 1, lift at 1.
  destruct (int_floordiv_float num_per_block num_buffers) as [chunk | e |] eqn:Hdiv;
    [ | done | done].
  unfold bind at 1.
  pose proof (get_block_buffer_run scope i chunk shape w3) as Hg.
  destruct (get_block_buffer scope i chunk shape w3) as [[buffer | e |] w4];
    [ | done | done].
  destruct Hg as [(Hd4 & Ho4 & Hs4 & Hio4) ->].
  assert (Hsl4 : slots w4 = <[i := block']> (slots w))
    by (unfold slots at 1; rewrite Hs4, Hm3, Hm; done).
  fold (cursor_at chunk shape i).
  assert (Hlt' : Forall (fun c => cu_index c < S i)
                   (buffers ++ [cursor_at chunk shape i])).
  { apply Forall_app. split.
    - eapply Forall_impl; [exact Hlt |]. cbn. lia.
    - constructor; [cbn; lia | constructor]. }
  intros Hrun.
  destruct (IH blocks' (S i) _ w4 bs w' Hlt' ltac:(lia) Hrun)
    as (Hlow & Hslots & m' & Hm1 & Hm2' & Hbs).
  cbv zeta in *. rewrite Hnpb, Hpos, Hd4, Hd3, Hd2 in *.
  set (B := Z.to_nat (bb_num_per_block blocks)) in *.
  set (rest := drop (bb_pos blocks) (dataset w)) in *.
  assert (HB1 : 1 <= B) by (subst B; lia).
  assert (Hrest' : drop (bb_pos blocks + B) (dataset w) = drop B rest)
    by (subst rest; by rewrite drop_drop).
  rewrite Hrest' in *. rewrite length_drop in *.
  assert (Hlen : 1 <= length rest) by (destruct rest; [done | cbn; lia]).
  split; [| split].
  - intros idx Hidx. rewrite Hlow by lia. rewrite Hsl4.
    apply lookup_insert_ne. lia.
  - intros [| j] Hj.
    + exists block'. split.
      * rewrite Nat.add_0_r, Hlow by lia. rewrite Hsl4.
        apply lookup_insert_eq.
      * by rewrite Hperm, Hblock, drop_0.
    + destruct (Hslots j) as (blk & Hblk & Hp); [nia |].
      exists blk. split.
      * rewrite <- Hblk. f_equal. lia.
      * rewrite Hp, drop_drop. do 2 f_equal; lia.
  - exists (S m').
    assert (length rest <= S m' * B /\ S m' * B < length rest + B) as [? ?].
    { destruct (le_lt_dec B (length rest)) as [Hge | Hlt2].
      - replace (length rest - B + B) with (length rest) in Hm2' by lia. nia.
      - replace (length rest - B) with 0 in * by lia.
        destruct m' as [| m']; [lia | nia]. }
    split; [done |]. split; [done |]. right. exists chunk.
    split; [done |].
    destruct Hbs as [[-> ->] | (chunk' & [= <-] & ->)].
    + reflexivity.
    + by rewrite <- app_assoc.
Qed.

(** *** Rounds over cursors that advance in step *)

Lemma same_log (e : event) w : same w (log e w).2.
Proof. by repeat split. Qed.

Lemma extends_log_quiet (e : event) w :
  quiet e -> extends quiet w (log e w).2.
Proof. intros He. exists [e]. split; [done | by constructor]. Qed.

(** A round over exhausted cursors pulls nothing and keeps none. *)
Lemma pull_exhausted (c : nat) (buffers : list cursor)
    (cb : option (list sample)) (rem : list cursor) w m :
  io_budget w = None -> scratch w = Some m ->
  Forall (uniform m c 0) buffers ->
  exists w',
    pull buffers cb rem w = (Ok (cb, rem), w') /\
    same w w' /\ extends quiet w w'.
Proof.
  intros Hio Hs Hall. revert w Hio Hs.
  induction Hall as [| cu rest Hcu _ IH]; intros w Hio Hs; cbn [pull].
  - exists w. split; [done |]. split; [apply same_refl | apply reflexivity].
  - destruct Hcu as ([rows Hrows] & _ & Hlen). unfold cursor_rest in Hlen.
    rewrite Hrows in Hlen. apply nil_length_inv in Hlen.
    erewrite bind_ok by (eapply cursor_next_stop; eassumption).
    destruct (IH (log (ECursorNext (cu_index cu) None) w).2) as (w' & -> & Hw & He);
      [exact Hio | exact Hs |].
    exists w'. split; [done |]. split.
    + eapply same_trans; [apply same_log | exact Hw].
    + etransitivity; [| exact He]; apply extends_log_quiet; by split.
Qed.

(** A round over cursors that all have at least one full chunk left pulls
    one full chunk from each and keeps them all. *)
Lemma pull_full (c j : nat) (buffers : list cursor)
    (cb : option (list sample)) (rem : list cursor) w m :
  io_budget w = None -> scratch w = Some m -> 1 <= c ->
  Forall (uniform m c (S j * c)) buffers ->
  exists cb' adv w',
    pull buffers cb rem w = (Ok (cb', rem ++ adv), w') /\
    same w w' /\ extends quiet w w' /\
    length adv = length buffers /\
    Forall (uniform m c (j * c)) adv /\
    length (flat cb') = length (flat cb) + length buffers * c /\
    (buffers <> [] -> cb' <> None).
Proof.
  intros Hio Hs Hc Hall. revert cb rem w Hio Hs.
  induction Hall as [| cu rest Hcu _ IH]; intros cb rem w Hio Hs; cbn [pull].
  - exists cb, [], w. rewrite app_nil_r. split; [done |].
    split; [apply same_refl |]. split; [apply reflexivity |].
    repeat split; [constructor | cbn; lia | done].
  - destruct Hcu as ([rows Hrows] & Hchunk & Hlen).
    unfold cursor_rest in Hlen. rewrite Hrows in Hlen.
    destruct (drop (cu_pos cu) rows) as [| y r] eqn:Hdrop; [cbn in Hlen; lia |].
    erewrite bind_ok by (eapply cursor_next_chunk; eassumption).
    cbv beta iota. rewrite Hchunk.
    set (cu' := {| cu_index := cu_index cu; cu_chunk := cu_chunk cu;
                   cu_shape := cu_shape cu; cu_pos := cu_pos cu + c |}).
    set (block := take c (y :: r)).
    assert (Hblock : length block = c)
      by (subst block; rewrite length_take; cbn [length] in *; nia).
    destruct (IH (Some match cb with Some cb0 => cb0 ++ block | None => block end)
                (rem ++ [cu'])
                (log (ECursorNext (cu_index cu) (Some (length block))) w).2)
      as (cb' & adv & w' & -> & Hw & He & Hadv & Huni & Hflat & _);
      [exact Hio | exact Hs |].
    exists cb', (cu' :: adv), w'. split; [by rewrite <- app_assoc |].
    split; [eapply same_trans; [apply same_log | exact Hw] |].
    split; [etransitivity; [| exact He]; apply extends_log_quiet; by split |].
    split; [cbn [length]; lia |]. split; [| split].
    + constructor; [| exact Huni]. split; [| split].
      * unfold has_slot. cbn. eauto.
      * exact Hchunk.
      * unfold cursor_rest. cbn [cu_index cu_pos cu']. rewrite Hrows.
        rewrite <- drop_drop, Hdrop, length_drop, Hlen. nia.
    + rewrite Hflat. cbn [length].
      destruct cb; unfold flat, default; cbn [from_option]; unfold id;
        rewrite ?length_app; cbn [length]; lia.
    + intros _ E. rewrite E in Hflat. cbn in Hflat.
      destruct cb; unfold flat, default in Hflat; cbn [from_option] in Hflat;
        unfold id in Hflat; rewrite ?length_app in Hflat; cbn [length] in Hflat;
        lia.
Qed.

Lemma filter_quiet (t : list event) :
  Forall quiet t -> filter is_write t = [] /\ filter is_round t = [].
Proof.
  induction 1 as [| e t [Hw Hr] _ [IHw IHr]]; [done |].
  rewrite !filter_cons, IHw, IHr, Hw, Hr. done.
Qed.

Lemma replicate_snoc {A} (k : nat) (x : A) :
  replicate k x ++ [x] = replicate (S k) x.
Proof. induction k as [| k IH]; [done |]. cbn. by rewrite IH. Qed.

(** Over a collection of cursors of chunk size [c] that each have [j]
    full chunks left, the merge loop runs [j] rounds that each write one
    block of [c] rows per cursor, and one more round that finds every cursor
    exhausted. *)
Lemma phase2_uniform (c j fuel : nat) (writer : BlockWriter)
    (cs : list cursor) w m :
  io_budget w = None -> scratch w = Some m -> 1 <= c -> cs <> [] ->
  Forall (uniform m c (j * c)) cs -> j < fuel ->
  exists w' t,
    phase2 np_random_shuffle fuel writer cs w = (Ok (), w') /\
    trace w' = t ++ trace w /\
    filter is_write t = replicate j (EWrite (length cs * c)) /\
    length (filter is_round t) = S j.
Proof.
  revert fuel cs w. induction j as [| j IH];
    intros [| fuel] [| b bs] w Hio Hs Hc Hne Hall Hfuel; try done; try lia;
    cbn [phase2].
  - erewrite bind_ok by reflexivity.
    destruct (pull_exhausted c (b :: bs) None [] (log (ERound (length (b :: bs))) w).2 m)
      as (w1 & Hpull & Hw1 & (t1 & Ht1 & Ft1)); [exact Hio | exact Hs | exact Hall |].
    erewrite bind_ok by exact Hpull. cbv beta iota.
    erewrite bind_ok by reflexivity.
    destruct fuel; cbn [phase2]; unfold ret; exists w1, (t1 ++ [ERound (length (b :: bs))]);
      (split; [done |]); (split; [by rewrite Ht1, <- app_assoc |]);
      destruct (filter_quiet t1 Ft1) as [Hfw Hfr];
      rewrite !filter_app, Hfw, Hfr; by split.
  - erewrite bind_ok by reflexivity.
    set (k := length (b :: bs)) in *.
    destruct (pull_full c j (b :: bs) None [] (log (ERound k) w).2 m)
      as (cb' & adv & w1 & Hpull & Hw1 & (t1 & Ht1 & Ft1) & Hadv & Huni & Hflat & Hsome);
      [exact Hio | exact Hs | exact Hc | exact Hall |].
    erewrite bind_ok by exact Hpull. cbv beta iota.
    destruct cb' as [blk |]; [| by destruct Hsome].
    cbn [app]. change (length (flat None)) with 0 in Hflat.
    change (flat (Some blk)) with blk in Hflat.
    destruct Hw1 as (Hd1 & Ho1 & Hs1 & Hio1). cbn [log snd io_budget scratch] in *.
    erewrite bind_ok.
    2:{ erewrite bind_ok by apply random_shuffle_eq.
        apply BlockWriter_write_ok. cbn. by apply Hio1. }
    norm.
    pose proof (np_random_shuffle_perm (gen w1) blk) as Hperm.
    set (blk' := (np_random_shuffle (gen w1) blk).1) in *.
    match goal with
    | |- context [phase2 _ fuel writer adv ?w3] =>
        destruct (IH fuel adv w3) as (w' & t & -> & Ht & Hfw & Hfr)
    end.
    + cbn. by apply Hio1.
    + cbn. by rewrite Hs1.
    + exact Hc.
    + intros ->. cbn in Hadv. subst k. cbn in Hadv. lia.
    + exact Huni.
    + lia.
    + exists w', (t ++ [EWrite (length blk')] ++ t1 ++ [ERound k]).
      split; [done |]. split.
      * rewrite Ht. cbn [trace]. rewrite Ht1. cbn [trace log snd].
        by rewrite <- !app_assoc.
      * destruct (filter_quiet t1 Ft1) as [Hfw1 Hfr1].
        rewrite !filter_app, Hfw, Hfr1, Hfw1. cbn [app].
        rewrite !length_app, Hfr.
        assert (length blk' = k * c) as -> by (subst blk'; rewrite Hperm; lia).
        rewrite Hadv. split; [apply replicate_snoc |].
        cbn. repeat case_decide; try done. cbn [length]. lia.
Qed.

(** Phase 1 writes nothing to the output file and starts no round. *)
Lemma quiet_phase1 (fuel : nat) (scope : BlockScope) (num_per_block : Z)
    (num_buffers : Q) (shape : Z * Z) (blocks : BlockBuffer) (i : nat)
    (buffers : list cursor) :
  keeps (extends quiet)
    (phase1 np_random_shuffle fuel scope num_per_block num_buffers shape
       blocks i buffers).
Proof.
  revert blocks i buffers.
  induction fuel as [| fuel IH]; intros blocks i buffers; cbn [phase1].
  - intros w. apply reflexivity.
  - apply keeps_bind; [apply _ | |].
    { unfold BlockBuffer_next.
      apply keeps_bind; [apply _ | apply extends_io |]. intros _.
      apply keeps_bind; [apply _ | apply extends_read_world |]. intros w0.
      destruct (drop (bb_pos blocks) (dataset w0));
        (apply keeps_bind; [apply _ | by apply extends_log |]; intros _;
         apply keeps_ret; apply _). }
    intros [[block blocks'] |]; [| apply keeps_ret; apply _].
    apply keeps_bind; [apply _ | |].
    { intros w. rewrite random_shuffle_eq. exists [].
      split; [done | constructor]. }
    intros block'. apply keeps_bind; [apply _ | |].
    { unfold write_block.
      apply keeps_bind; [apply _ | apply extends_io |]. intros _.
      apply keeps_bind; [apply _ | apply extends_read_world |]. intros w0.
      destruct (scratch w0); [| apply extends_raise].
      apply keeps_bind; [apply _ | |]; [| intros _; by apply extends_log].
      intros w. exists []. split; [done | constructor]. }
    intros _. apply keeps_bind; [apply _ | apply keeps_lift; apply _ |].
    intros chunk. apply keeps_bind; [apply _ | |].
    { unfold get_block_buffer.
      apply keeps_bind; [apply _ | apply extends_io |]. intros _.
      apply keeps_bind; [apply _ | apply extends_read_world |]. intros w0.
      destruct (scratch w0) as [m |]; [| apply extends_raise].
      destruct (m !! i); [| apply extends_raise].
      apply keeps_bind; [apply _ | by apply extends_log |]. intros _.
      apply keeps_ret; apply _. }
    intros buffer. apply IH.
Qed.

Lemma filter_rev {A} (P : A -> Prop) `{!forall x, Decision (P x)} (l : list A) :
  filter P (rev l) = rev (filter P l).
Proof.
  induction l as [| x l IH]; [done |].
  cbn [rev]. rewrite filter_app, IH, !filter_cons, filter_nil.
  destruct (decide (P x)); cbn [rev]; [done |]. by rewrite app_nil_r.
Qed.

Lemma rev_replicate {A} (k : nat) (x : A) : rev (replicate k x) = replicate k x.
Proof.
  induction k as [| k IH]; [done |]. cbn [replicate rev].
  rewrite IH. apply replicate_snoc.
Qed.

(** X8: when the dataset file holds [k] blocks of [B = c * k] samples and
    [n = k * B] is declared, so that every division is even, a run in an
    environment that does not fail goes through [k + 1] rounds of the merge
    loop and writes the output file as [k] blocks of exactly [B] rows: no
    combined buffer is larger than one block. *)
Theorem even_division_blocks (k c fuel : nat) (dtype : string)
    (num_features : Z) (train_path : string) w :
  io_budget w = None -> 1 <= k -> 1 <= c ->
  length (dataset w) = k * (c * k) ->
  length (dataset w) < fuel ->
  exists w',
    external_shuffle np_random_shuffle fuel dtype (Z.of_nat (k * (c * k)))
      num_features (Z.of_nat (c * k)) train_path w = (Ok (), w') /\
    writes (new_events (trace w) (trace w')) = replicate k (EWrite (c * k)) /\
    rounds (new_events (trace w) (trace w')) = S k.
Proof.
  intros Hio Hk Hc Hlen Hfuel.
  set (B := Z.of_nat (c * k)). set (n := Z.of_nat (k * (c * k))).
  assert (HB : (0 < B)%Z) by (subst B; nia).
  assert (Hn : (0 < n)%Z) by (subst n; nia).
  assert (HBn : Z.to_nat B = c * k) by (subst B; lia).
  destruct (chunk_value n B HB Hn) as (nb & Hnb & Hchunk).
  assert (nb = (inject_Z n / inject_Z B)%Q) as ->.
  { unfold int_truediv in Hnb. destruct (Z.eqb_spec B 0); [lia |]. congruence. }
  replace (B * B / n)%Z with (Z.of_nat c) in Hchunk.
  2:{ replace (B * B)%Z with (Z.of_nat c * n)%Z by (subst B n; lia).
      by rewrite Z.div_mul by lia. }
  assert (HB0 : B <> 0%Z) by lia.
  rewrite (external_shuffle_nonzero _ _ _ _ _ _ _ HB0).
  unfold with_BlockScope.
  change (scope_enter "float64" "samplesort" B w) with
    (Ok {| bs_dtype := "float64"; bs_tag := "samplesort"; bs_num_per_block := B |},
     (set_scratch (Some ∅) (log (EScopeEnter "float64" "samplesort" B) w).2).2).
  cbv beta iota.
  set (scope := {| bs_dtype := "float64"; bs_tag := "samplesort";
                   bs_num_per_block := B |}).
  unfold external_shuffle_body.
  erewrite bind_ok by reflexivity. erewrite bind_ok by reflexivity. norm.
  set (shape := (B, (num_features + 1)%Z)).
  set (blocks := {| bb_dtype := dtype; bb_num_per_block := B;
                    bb_path := train_path; bb_shape := shape; bb_pos := 0 |}).
  set (writer := {| bw_dtype := dtype; bw_num_per_block := B;
                    bw_path := train_path |}).
  set (w0 := {| dataset := dataset w; output := output w; scratch := Some ∅;
                gen := gen w; io_budget := io_budget w;
                trace := EBufferNew dtype B train_path shape
                         :: EWriterNew dtype B train_path
                            :: EScopeEnter "float64" "samplesort" B :: trace w |}).
  unfold bind at 1.
  pose proof (phase1_run fuel scope B (inject_Z n / inject_Z B) shape blocks 0
                [] w0 (Forall_nil_2 _)) as Hrun1.
  destruct (safe_phase1 np_random_shuffle fuel scope B
              (inject_Z n / inject_Z B) shape blocks 0 [] w0)
    as [(_ & _ & _ & Hsc) _].
  pose proof (quiet_phase1 fuel scope B (inject_Z n / inject_Z B) shape blocks 0
                [] w0) as (t1 & Ht1 & Ft1).
  destruct (phase1 np_random_shuffle fuel scope B (inject_Z n / inject_Z B)
              shape blocks 0 [] w0) as [[bs | e |] w1] eqn:H1;
    cbn [fst snd] in *.
  2:{ exfalso. destruct Hrun1 as [_ Hraise]; [exact Hio | by eexists |].
      rewrite Hchunk in Hraise. discriminate. }
  2:{ exfalso. destruct Hrun1 as [_ Hdiv].
      cbn [blocks bb_num_per_block bb_pos w0 dataset] in Hdiv.
      rewrite drop_0 in Hdiv. specialize (Hdiv ltac:(lia)). lia. }
  destruct Hrun1 as (Hd1 & Ho1 & Hio1 & _).
  destruct (phase1_layout fuel scope B (inject_Z n / inject_Z B) shape blocks 0
              [] w0 bs w1 (Forall_nil_2 _) ltac:(cbn; lia) H1)
    as (_ & Hslots & count & Hc1 & Hc2 & Hbs).
  cbn [blocks bb_num_per_block bb_pos w0 dataset] in Hslots, Hc1, Hc2.
  rewrite drop_0, HBn in *. rewrite Hlen in Hc1, Hc2.
  assert (count = k) as -> by nia.
  destruct Hbs as [[-> _] | (chunk & Hdiv & Hbs)]; [lia |].
  rewrite Hchunk in Hdiv. injection Hdiv as <-. cbn [app] in Hbs.
  destruct (Hsc ltac:(by eexists)) as [m Hm].
  assert (Hslm : slots w1 = m) by (unfold slots; by rewrite Hm).
  assert (Huni : Forall (uniform m c (k * c)) bs).
  { rewrite Hbs. apply Forall_map, Forall_forall. intros j Hj.
    apply elem_of_seq in Hj.
    destruct (Hslots j) as (block & Hblock & Hperm); [nia |].
    rewrite Hslm in Hblock. cbn [Nat.add] in Hblock.
    split; [| split].
    - unfold has_slot. cbn. eauto.
    - cbn. lia.
    - unfold cursor_rest. cbn. rewrite Hblock, drop_0, Hperm.
      rewrite length_take, length_drop. nia. }
  destruct (phase2_uniform c k fuel writer bs w1 m)
    as (w2 & t2 & Hrun2 & Ht2 & Hfw & Hfr);
    [by apply Hio1 | exact Hm | exact Hc | | exact Huni | nia |].
  { rewrite Hbs. destruct k; [lia | done]. }
  rewrite Hrun2.
  eexists. split; [reflexivity |].
  assert (Htrace : trace (scope_exit scope w2).2 =
                   (EScopeExit :: t2 ++ t1 ++
                    [EBufferNew dtype B train_path shape;
                     EWriterNew dtype B train_path;
                     EScopeEnter "float64" "samplesort" B]) ++ trace w).
  { destruct (scope_exit_run scope w2) as (_ & _ & _ & ->).
    rewrite Ht2, Ht1. cbn [w0 trace app]. by rewrite <- !app_assoc. }
  rewrite Htrace, new_events_app. unfold writes, rounds.
  rewrite !filter_rev, length_rev.
  destruct (filter_quiet t1 Ft1) as [Hw1 Hr1].
  rewrite !filter_cons, !filter_app, Hfw, Hw1, Hr1.
  assert (length bs = k) as -> by (rewrite Hbs, length_map; apply length_seq).
  cbn. repeat case_decide; try done.
  rewrite !app_nil_r, rev_replicate, Hfr. split; [| done].
  by rewrite (Nat.mul_comm k c).
Qed.

(** X9: Phase 1 cuts the dataset file into blocks of [B] samples and
    stores block [j], shuffled, in slot [j] of the scratch space.  With a
    reader at the start of the file, an environment that does not fail and
    a chunk size that can be computed, it returns one cursor per block, in
    block order, [ceil(len / B)] of them, each at the start of its slot. *)
Theorem phase1_stores_blocks (fuel : nat) (scope : BlockScope)
    (num_per_block : Z) (num_buffers : Q) (shape : Z * Z)
    (blocks : BlockBuffer) (chunk : Z) w :
  io_budget w = None -> is_Some (scratch w) ->
  bb_pos blocks = 0 -> (1 <= bb_num_per_block blocks)%Z ->
  int_floordiv_float num_per_block num_buffers = Ok chunk ->
  length (dataset w) < fuel ->
  let B := Z.to_nat (bb_num_per_block blocks) in
  exists count w',
    phase1 np_random_shuffle fuel scope num_per_block num_buffers shape blocks
      0 [] w = (Ok (map (cursor_at chunk shape) (seq 0 count)), w') /\
    length (dataset w) <= count * B < length (dataset w) + B /\
    forall j, j < count ->
      exists block, slots w' !! j = Some block /\
                    block ≡ₚ take B (drop (j * B) (dataset w)).
Proof.
  intros Hio Hsc Hpos HB Hdiv Hfuel B.
  pose proof (phase1_run fuel scope num_per_block num_buffers shape blocks 0
                [] w (Forall_nil_2 _)) as Hrun.
  destruct (phase1 np_random_shuffle fuel scope num_per_block num_buffers shape
              blocks 0 [] w) as [[bs | e |] w'] eqn:H1.
  - destruct (phase1_layout fuel scope num_per_block num_buffers shape blocks
                0 [] w bs w' (Forall_nil_2 _) HB H1)
      as (_ & Hslots & count & Hc1 & Hc2 & Hbs).
    rewrite Hpos, drop_0 in Hslots, Hc1, Hc2. fold B in Hslots, Hc1, Hc2.
    exists count, w'. split; [| split; [lia |]].
    + f_equal. destruct Hbs as [[-> ->] | (chunk' & Hdiv' & ->)]; [done |].
      rewrite Hdiv in Hdiv'. by injection Hdiv' as <-.
    + intros j Hj. apply (Hslots j). nia.
  - destruct (Hrun Hio Hsc) as [_ Hraise]. congruence.
  - destruct Hrun as [_ Hdiverge]. specialize (Hdiverge HB).
    rewrite Hpos, drop_0 in Hdiverge. lia.
Qed.

(** *** The dispatcher's block size *)



(** *** From the memory budget to the shuffle *)




(** *** Reads before writes *)

Lemma merging_phase2 (fuel : nat) (writer : BlockWriter) (buffers : list cursor) :
  keeps (extends merging) (phase2 np_random_shuffle fuel writer buffers).
Proof.
  revert buffers.
  induction fuel as [| fuel IH]; intros [| b bs]; cbn [phase2];
    try (intros w; apply reflexivity).
  apply keeps_bind; [apply _ | by apply extends_log |]. intros _.
  apply keeps_bind; [apply _ | |].
  { generalize (@None (list sample)) (@nil cursor).
    induction (b :: bs) as [| cu rest IHp]; intros cb rem; cbn [pull].
    - apply keeps_ret; apply _.
    - apply keeps_bind; [apply _ | |];
        [| intros [[block buffer'] |]; apply IHp].
      unfold cursor_next.
      apply keeps_bind; [apply _ | apply extends_io |]. intros _.
      apply keeps_bind; [apply _ | apply extends_read_world |]. intros w0.
      destruct (scratch w0) as [m |]; [| apply extends_raise].
      destruct (m !! cu_index cu) as [rows |]; [| apply extends_raise].
      destruct (drop (cu_pos cu) rows) as [| y r];
        (apply keeps_bind; [apply _ | by apply extends_log |]; intros _;
         apply keeps_ret; apply _). }
  intros [cb rem]. apply keeps_bind; [apply _ | | intros _; apply IH].
  destruct cb as [cb0 |]; [| apply keeps_ret; apply _].
  apply keeps_bind; [apply _ | |].
  { intros w. rewrite random_shuffle_eq. exists [].
    split; [done | constructor]. }
  intros cb'. unfold BlockWriter_write.
  apply keeps_bind; [apply _ | apply extends_io |]. intros _.
  apply keeps_bind; [apply _ | apply extends_read_world |]. intros w0.
  apply keeps_bind; [apply _ | | intros _; by apply extends_log].
  intros w. exists []. split; [done | constructor].
Qed.

(** X17: a run never writes the output file before it has finished
    reading the dataset file.  Whatever the arguments, the environment and
    the outcome, the events of a run split in two: first those of the setup
    and Phase 1, with no write to the output file among them, then those of
    Phase 2 and the release of the scope, with no read of the dataset file
    and no write of a scratch slot among them. *)
Theorem external_shuffle_reads_before_writes (fuel : nat) (dtype : string)
    (n num_features num_per_block : Z) (train_path : string) w :
  exists t1 t2,
    trace (external_shuffle np_random_shuffle fuel dtype n num_features
             num_per_block train_path w).2 = t2 ++ t1 ++ trace w /\
    Forall quiet t1 /\ Forall merging t2.
Proof.
  destruct (decide (num_per_block = 0%Z)) as [-> | HB].
  { destruct (external_shuffle_effects fuel dtype n num_features 0 train_path w)
      as (_ & Hzero & _).
    cbv zeta in Hzero. rewrite Hzero by done. by exists [], []. }
  rewrite (external_shuffle_nonzero _ _ _ _ _ _ _ HB). unfold with_BlockScope.
  change (scope_enter "float64" "samplesort" num_per_block w) with
    (Ok {| bs_dtype := "float64"; bs_tag := "samplesort";
           bs_num_per_block := num_per_block |},
     (set_scratch (Some ∅)
        (log (EScopeEnter "float64" "samplesort" num_per_block) w).2).2).
  cbv beta iota.
  set (scope := {| bs_dtype := "float64"; bs_tag := "samplesort";
                   bs_num_per_block := num_per_block |}).
  unfold external_shuffle_body.
  erewrite bind_ok by reflexivity. erewrite bind_ok by reflexivity. norm.
  set (shape := (num_per_block, (num_features + 1)%Z)).
  set (blocks := {| bb_dtype := dtype; bb_num_per_block := num_per_block;
                    bb_path := train_path; bb_shape := shape; bb_pos := 0 |}).
  set (writer := {| bw_dtype := dtype; bw_num_per_block := num_per_block;
                    bw_path := train_path |}).
  set (w0 := {| dataset := dataset w; output := output w; scratch := Some ∅;
                gen := gen w; io_budget := io_budget w;
                trace := EBufferNew dtype num_per_block train_path shape
                         :: EWriterNew dtype num_per_block train_path
                            :: EScopeEnter "float64" "samplesort" num_per_block
                               :: trace w |}).
  unfold bind at 1.
  pose proof (quiet_phase1 fuel scope num_per_block
                (inject_Z n / inject_Z num_per_block) shape blocks 0 [] w0)
    as (t1 & Ht1 & F1).
  destruct (phase1 np_random_shuffle fuel scope num_per_block
              (inject_Z n / inject_Z num_per_block) shape blocks 0 [] w0)
    as [[bs | e |] w1]; cbn [snd w0 trace] in Ht1; cbn [snd].
  - pose proof (merging_phase2 fuel writer bs w1) as (t2 & Ht2 & F2).
    destruct (phase2 np_random_shuffle fuel writer bs w1) as [[[] | e |] w2];
      cbn [snd] in Ht2 |- *.
    + exists (t1 ++ [EBufferNew dtype num_per_block train_path shape;
                     EWriterNew dtype num_per_block train_path;
                     EScopeEnter "float64" "samplesort" num_per_block]),
             (EScopeExit :: t2).
      split; [| split].
      * destruct (scope_exit_run scope w2) as (_ & _ & _ & ->).
        rewrite Ht2, Ht1. cbn [app]. by rewrite <- !app_assoc.
      * apply Forall_app. split; [done |]. by repeat constructor.
      * by constructor.
    + exists (t1 ++ [EBufferNew dtype num_per_block train_path shape;
                     EWriterNew dtype num_per_block train_path;
                     EScopeEnter "float64" "samplesort" num_per_block]),
             (EScopeExit :: t2).
      split; [| split].
      * destruct (scope_exit_run scope w2) as (_ & _ & _ & ->).
        rewrite Ht2, Ht1. cbn [app]. by rewrite <- !app_assoc.
      * apply Forall_app. split; [done |]. by repeat constructor.
      * by constructor.
    + exists (t1 ++ [EBufferNew dtype num_per_block train_path shape;
                     EWriterNew dtype num_per_block train_path;
                     EScopeEnter "float64" "samplesort" num_per_block]), t2.
      split; [| split].
      * rewrite Ht2, Ht1. cbn [app]. by rewrite <- !app_assoc.
      * apply Forall_app. split; [done |]. by repeat constructor.
      * done.
  - exists (t1 ++ [EBufferNew dtype num_per_block train_path shape;
                   EWriterNew dtype num_per_block train_path;
                   EScopeEnter "float64" "samplesort" num_per_block]),
           [EScopeExit].
    split; [| split].
    + destruct (scope_exit_run scope w1) as (_ & _ & _ & ->).
      rewrite Ht1. cbn [app]. by rewrite <- !app_assoc.
    + apply Forall_app. split; [done |]. by repeat constructor.
    + by repeat constructor.
  - exists (t1 ++ [EBufferNew dtype num_per_block train_path shape;
                   EWriterNew dtype num_per_block train_path;
                   EScopeEnter "float64" "samplesort" num_per_block]), [].
    split; [| split].
    + cbn [snd]. rewrite Ht1. cbn [app]. by rewrite <- !app_assoc.
    + apply Forall_app. split; [done |]. by repeat constructor.
    + constructor.
Qed.
End Runs.

(** ** Concrete runs *)

Lemma rev_shuffle_perm (g : nat) (block : list Z) :
  (Demo.rev_shuffle g block).1 ≡ₚ block.
Proof. cbn. symmetry. apply Permutation_rev. Qed.


(** C2: called as the command line calls it, with 3 features and blocks of
    4 samples, [shuffle_train] runs the shuffle with blocks of 3 samples and
    4 features: the two values reach [external_shuffle] in each other's
    place. *)
Theorem shuffle_train_swaps_block_size :
  shuffle_train Demo.rev_shuffle 20 "external_shuffle" "float64" 8 3 4
    "data/train" (Demo.disk Demo.scenario_A None) =
  external_shuffle Demo.rev_shuffle 20 "float64" 8 4 3 "data/train"
    (Demo.disk Demo.scenario_A None) /\
  take 5
    (new_events []
       (trace (shuffle_train Demo.rev_shuffle 20 "external_shuffle" "float64"
                 8 3 4 "data/train" (Demo.disk Demo.scenario_A None)).2)) =
  [EScopeEnter "float64" "samplesort" 3;
   EWriterNew "float64" 3 "data/train";
   EBufferNew "float64" 3 "data/train" (3, 5)%Z;
   EReadBlock (Some 3);
   EWriteSlot 0 3].
Proof. split; [reflexivity | vm_compute; reflexivity]. Qed.



Lemma single_block_two_rounds_witness :
  exists w',
    external_shuffle Demo.rev_shuffle 2 "float64" 10 3 10 "data/train"
      (Demo.disk Demo.scenario_B None) = (Ok (), w') /\
    filter is_round (new_events [] (trace w')) = [ERound 1; ERound 1] /\
    rounds (new_events [] (trace w')) = 2 /\
    writes (new_events [] (trace w')) = [EWrite 10] /\
    exists block, output w' = [] ++ block /\ block ≡ₚ Demo.scenario_B.
Proof.
  apply (single_block_two_rounds Demo.rev_shuffle rev_shuffle_perm 0 "float64"
           3 "data/train" (Demo.disk Demo.scenario_B None));
    [reflexivity | discriminate].
Defined.

(** C4, as stated, fails: in Scenario B no run that returns has gone
    through exactly one round of the merge loop. *)
Lemma scenario_B_not_one_round :
  ~ exists fuel w',
      external_shuffle Demo.rev_shuffle fuel "float64" 10 3 10 "data/train"
        (Demo.disk Demo.scenario_B None) = (Ok (), w') /\
      rounds (new_events [] (trace w')) = 1.
Proof.
  intros (fuel & w' & Hrun & Hrounds).
  destruct fuel as [| [| fuel]];
    [vm_compute in Hrun; discriminate | vm_compute in Hrun; discriminate |].
  pose proof (single_block_rounds Demo.rev_shuffle rev_shuffle_perm fuel
                "float64" 3 "data/train" (Demo.disk Demo.scenario_B None) w'
                eq_refl ltac:(discriminate) Hrun) as H2.
  change (trace (Demo.disk Demo.scenario_B None)) with (@nil event) in H2.
  congruence.
Qed.

(** [Demo.merge_world] and the cursors of chunk size 0 are what Phase 1 of
    [external_shuffle] hands to Phase 2 for 2 samples in blocks of 1: line
    86 computes the chunk size [1 // (2 / 1)], which is 0. *)
Example merge_world_from_phase1 :
  int_truediv 2 1 = Ok 2%Q /\
  let scope := {| bs_dtype := "float64"; bs_tag := "samplesort";
                  bs_num_per_block := 1 |} in
  let blocks := {| bb_dtype := "float64"; bb_num_per_block := 1;
                   bb_path := "data/train"; bb_shape := (1, 4)%Z;
                   bb_pos := 0 |} in
  let r := phase1 Demo.rev_shuffle 3 scope 1 2 (1, 4)%Z blocks 0 []
             (scope_enter "float64" "samplesort" 1
                (Demo.disk [1; 2]%Z None)).2 in
  r.1 = Ok (Demo.merge_cursors 0) /\
  scratch r.2 = scratch Demo.merge_world /\
  dataset r.2 = dataset Demo.merge_world /\
  output r.2 = output Demo.merge_world /\
  gen r.2 = gen Demo.merge_world /\
  io_budget r.2 = io_budget Demo.merge_world.
Proof. vm_compute. by repeat split. Qed.



Lemma external_shuffle_releases_scope_witness :
  scratch (external_shuffle Demo.rev_shuffle 20 "float64" 8 3 4 "data/train"
             (Demo.disk Demo.scenario_A (Some 5))).2 = None /\
  slots (external_shuffle Demo.rev_shuffle 20 "float64" 8 3 4 "data/train"
           (Demo.disk Demo.scenario_A (Some 5))).2 = ∅ /\
  forall num_buffers scope w1,
    int_truediv 8 4 = Ok num_buffers ->
    scope_enter "float64" "samplesort" 4 (Demo.disk Demo.scenario_A (Some 5)) =
      (Ok scope, w1) ->
    (external_shuffle_body Demo.rev_shuffle 20 "float64" 3 4 "data/train"
       num_buffers scope w1).1 = Raise DatasetReadError.
Proof.
  apply (external_shuffle_releases_scope Demo.rev_shuffle 20 "float64" 8 3 4
           "data/train" (Demo.disk Demo.scenario_A (Some 5))
           (Raise DatasetReadError));
    [reflexivity | vm_compute; reflexivity | reflexivity].
Defined.

Lemma shuffle_train_invalid_algorithm_witness :
  shuffle_train Demo.rev_shuffle 20 "quick_sort" "float64" 8 3 4 "data/train"
    (Demo.disk Demo.scenario_A None) =
  (Raise (AssertionError "Invalid shuffling algorithm provided."),
   Demo.disk Demo.scenario_A None) /\
  forall msg,
    (shuffle_train Demo.rev_shuffle 20 "external_shuffle" "float64" 8 3 4
       "data/train" (Demo.disk Demo.scenario_A None)).1 <>
    Raise (AssertionError msg).
Proof.
  split.
  - apply (shuffle_train_invalid_algorithm Demo.rev_shuffle 20 "quick_sort").
    unfold ALGORITHMS. rewrite !elem_of_cons, elem_of_nil.
    intros [H | [H | []]]; discriminate H.
  - apply (shuffle_train_invalid_algorithm Demo.rev_shuffle 20 "external_shuffle").
    unfold ALGORITHMS. rewrite !elem_of_cons. auto.
Defined.


Lemma external_shuffle_exits_witness :
  exited (external_shuffle Demo.rev_shuffle 21 "float64" 10 3 4 "data/train"
            (Demo.disk Demo.scenario_B (Some 5))).1 = true.
Proof.
  apply (external_shuffle_exits Demo.rev_shuffle rev_shuffle_perm 21
           "float64" 10 3 4 "data/train" (Demo.disk Demo.scenario_B (Some 5)));
    [lia | lia | lia | cbn; lia].
Defined.



Lemma empty_dataset_run_witness :
  external_shuffle Demo.rev_shuffle 1 "float64" 5 3 4 "data/train"
    (Demo.disk [] None) =
  (Ok (),
   {| dataset := []; output := []; scratch := None; gen := 0%nat;
      io_budget := None;
      trace := [EScopeExit; EReadBlock None;
                EBufferNew "float64" 4 "data/train" (4, 4)%Z;
                EWriterNew "float64" 4 "data/train";
                EScopeEnter "float64" "samplesort" 4] |}).
Proof.
  apply (empty_dataset_run Demo.rev_shuffle 0 "float64" 5 3 4 "data/train"
           (Demo.disk [] None)); [reflexivity | reflexivity | lia].
Defined.

Lemma zero_samples_declared_run_witness :
  external_shuffle Demo.rev_shuffle 1 "float64" 0 3 4 "data/train"
    (Demo.disk Demo.scenario_A None) =
  (Raise ZeroDivisionError,
   {| dataset := Demo.scenario_A; output := []; scratch := None; gen := 1%nat;
      io_budget := None;
      trace := [EScopeExit; EWriteSlot 0 4; EReadBlock (Some 4);
                EBufferNew "float64" 4 "data/train" (4, 4)%Z;
                EWriterNew "float64" 4 "data/train";
                EScopeEnter "float64" "samplesort" 4] |}).
Proof.
  apply (zero_samples_declared_run Demo.rev_shuffle 0 "float64" 3 4
           "data/train" (Demo.disk Demo.scenario_A None));
    [reflexivity | done | lia].
Defined.

Lemma phase2_within_witness :
  extends (within 2 1) Demo.merge_world
    (phase2 Demo.rev_shuffle 5 Demo.writer (Demo.merge_cursors 1)
       Demo.merge_world).2.
Proof.
  apply (phase2_within Demo.rev_shuffle rev_shuffle_perm 1 5 Demo.writer
           (Demo.merge_cursors 1) Demo.merge_world).
  repeat constructor; cbn; lia.
Defined.

Lemma even_division_blocks_witness :
  exists w',
    external_shuffle Demo.rev_shuffle 9 "float64" 8 3 4 "data/train"
      (Demo.disk Demo.scenario_A None) = (Ok (), w') /\
    writes (new_events [] (trace w')) = [EWrite 4; EWrite 4] /\
    rounds (new_events [] (trace w')) = 3.
Proof.
  apply (even_division_blocks Demo.rev_shuffle rev_shuffle_perm 2 2 9 "float64"
           3 "data/train" (Demo.disk Demo.scenario_A None));
    [reflexivity | lia | lia | reflexivity | cbn; lia].
Defined.

Lemma phase1_stores_blocks_witness :
  exists count w',
    phase1 Demo.rev_shuffle 11 Demo.scope 4 (10 / 4)%Q (4, 4)%Z Demo.reader 0 []
      (Demo.scoped Demo.scenario_B) =
      (Ok (map (cursor_at 1 (4, 4)%Z) (seq 0 count)), w') /\
    10 <= count * 4 < 10 + 4 /\
    forall j, j < count ->
      exists block, slots w' !! j = Some block /\
                    block ≡ₚ take 4 (drop (j * 4) Demo.scenario_B).
Proof.
  apply (phase1_stores_blocks Demo.rev_shuffle rev_shuffle_perm 11 Demo.scope 4
           (10 / 4)%Q (4, 4)%Z Demo.reader 1 (Demo.scoped Demo.scenario_B));
    [reflexivity | by eexists | reflexivity | cbn; lia | reflexivity
    | cbn; lia].
Defined.






End ShuffleFacts.
